(** * Verification of the notebook autograder ([.grading/test_functions.py])

    A shallow embedding of the grading core: the text matcher, the cell
    extractors, the answer checkers, the commit analyzer and the grading
    loop of [test_notebook], followed by the properties proved about them. *)

From Stdlib Require Import String Ascii DecimalString.
From Stdlib Require Import List ZArith NArith QArith Bool Lia Permutation.
Import ListNotations.
Close Scope Q_scope.

(** ** Python strings

    A Python [str] is a sequence of Unicode code points; a code point is a
    natural number.  Whitespace ([str.strip], [str.split] and the regular
    expression class [\s]) is the full Unicode whitespace set of CPython,
    and [str.lower] is the full Unicode lowercasing of CPython, with its
    tables. *)

Module Py.

Definition char := N.
Definition str := list char.

(** String literals of the source, written as Rocq strings (ASCII only). *)
Definition lit (s : string) : str := map N_of_ascii (list_ascii_of_string s).

Definition SPACE : char := 32%N.
Definition NEWLINE : char := 10%N.

Section Chars.
Open Scope N_scope.

(** [Py_UNICODE_ISSPACE]: the test used by [str.strip] and by [\s]. *)
Definition isspace (c : char) : bool :=
  ((9 <=? c) && (c <=? 13)) || ((28 <=? c) && (c <=? 32))
  || (c =? 133) || (c =? 160) || (c =? 5760)
  || ((8192 <=? c) && (c <=? 8202))
  || (c =? 8232) || (c =? 8233) || (c =? 8239) || (c =? 8287) || (c =? 12288).

End Chars.

Fixpoint str_eqb (a b : str) : bool :=
  match a, b with
  | [], [] => true
  | x :: a', y :: b' => N.eqb x y && str_eqb a' b'
  | _, _ => false
  end.

Section Case.
Open Scope N_scope.

(** *** Lowercasing

    [str.lower] as CPython computes it (Unicode 14): every code point is
    replaced by its lowercase mapping, which is one code point except for
    U+0130, and the capital sigma becomes the final sigma where it ends a
    word: when it follows a cased letter, case-ignorable code points apart,
    and is not followed by one. *)

Definition SIGMA : char := 931.
Definition FINAL_SIGMA : char := 962.
Definition SMALL_SIGMA : char := 963.
Definition DOTTED_CAPITAL_I : char := 304.

(** The simple lowercase mappings: the code points [lo], [lo + step], ...
    up to [hi] are mapped to [target], [target + step], ... *)
Definition lower_ranges : list (N * N * N * N) :=
  [
   (65, 90, 1, 97); (192, 214, 1, 224); (216, 222, 1, 248); (256, 302, 2, 257);
   (306, 310, 2, 307); (313, 327, 2, 314); (330, 374, 2, 331); (376, 376, 1, 255);
   (377, 381, 2, 378); (385, 385, 1, 595); (386, 388, 2, 387); (390, 390, 1, 596);
   (391, 391, 1, 392); (393, 394, 1, 598); (395, 395, 1, 396); (398, 398, 1, 477);
   (399, 399, 1, 601); (400, 400, 1, 603); (401, 401, 1, 402); (403, 403, 1, 608);
   (404, 404, 1, 611); (406, 406, 1, 617); (407, 407, 1, 616); (408, 408, 1, 409);
   (412, 412, 1, 623); (413, 413, 1, 626); (415, 415, 1, 629); (416, 420, 2, 417);
   (422, 422, 1, 640); (423, 423, 1, 424); (425, 425, 1, 643); (428, 428, 1, 429);
   (430, 430, 1, 648); (431, 431, 1, 432); (433, 434, 1, 650); (435, 437, 2, 436);
   (439, 439, 1, 658); (440, 440, 1, 441); (444, 444, 1, 445); (452, 452, 1, 454);
   (453, 453, 1, 454); (455, 455, 1, 457); (456, 456, 1, 457); (458, 458, 1, 460);
   (459, 475, 2, 460); (478, 494, 2, 479); (497, 497, 1, 499); (498, 500, 2, 499);
   (502, 502, 1, 405); (503, 503, 1, 447); (504, 542, 2, 505); (544, 544, 1, 414);
   (546, 562, 2, 547); (570, 570, 1, 11365); (571, 571, 1, 572); (573, 573, 1, 410);
   (574, 574, 1, 11366); (577, 577, 1, 578); (579, 579, 1, 384); (580, 580, 1, 649);
   (581, 581, 1, 652); (582, 590, 2, 583); (880, 882, 2, 881); (886, 886, 1, 887);
   (895, 895, 1, 1011); (902, 902, 1, 940); (904, 906, 1, 941); (908, 908, 1, 972);
   (910, 911, 1, 973); (913, 929, 1, 945); (932, 939, 1, 964); (975, 975, 1, 983);
   (984, 1006, 2, 985); (1012, 1012, 1, 952); (1015, 1015, 1, 1016); (1017, 1017, 1, 1010);
   (1018, 1018, 1, 1019); (1021, 1023, 1, 891); (1024, 1039, 1, 1104); (1040, 1071, 1, 1072);
   (1120, 1152, 2, 1121); (1162, 1214, 2, 1163); (1216, 1216, 1, 1231); (1217, 1229, 2, 1218);
   (1232, 1326, 2, 1233); (1329, 1366, 1, 1377); (4256, 4293, 1, 11520); (4295, 4295, 1, 11559);
   (4301, 4301, 1, 11565); (5024, 5103, 1, 43888); (5104, 5109, 1, 5112); (7312, 7354, 1, 4304);
   (7357, 7359, 1, 4349); (7680, 7828, 2, 7681); (7838, 7838, 1, 223); (7840, 7934, 2, 7841);
   (7944, 7951, 1, 7936); (7960, 7965, 1, 7952); (7976, 7983, 1, 7968); (7992, 7999, 1, 7984);
   (8008, 8013, 1, 8000); (8025, 8031, 2, 8017); (8040, 8047, 1, 8032); (8072, 8079, 1, 8064);
   (8088, 8095, 1, 8080); (8104, 8111, 1, 8096); (8120, 8121, 1, 8112); (8122, 8123, 1, 8048);
   (8124, 8124, 1, 8115); (8136, 8139, 1, 8050); (8140, 8140, 1, 8131); (8152, 8153, 1, 8144);
   (8154, 8155, 1, 8054); (8168, 8169, 1, 8160); (8170, 8171, 1, 8058); (8172, 8172, 1, 8165);
   (8184, 8185, 1, 8056); (8186, 8187, 1, 8060); (8188, 8188, 1, 8179); (8486, 8486, 1, 969);
   (8490, 8490, 1, 107); (8491, 8491, 1, 229); (8498, 8498, 1, 8526); (8544, 8559, 1, 8560);
   (8579, 8579, 1, 8580); (9398, 9423, 1, 9424); (11264, 11311, 1, 11312); (11360, 11360, 1, 11361);
   (11362, 11362, 1, 619); (11363, 11363, 1, 7549); (11364, 11364, 1, 637); (11367, 11371, 2, 11368);
   (11373, 11373, 1, 593); (11374, 11374, 1, 625); (11375, 11375, 1, 592); (11376, 11376, 1, 594);
   (11378, 11378, 1, 11379); (11381, 11381, 1, 11382); (11390, 11391, 1, 575); (11392, 11490, 2, 11393);
   (11499, 11501, 2, 11500); (11506, 11506, 1, 11507); (42560, 42604, 2, 42561); (42624, 42650, 2, 42625);
   (42786, 42798, 2, 42787); (42802, 42862, 2, 42803); (42873, 42875, 2, 42874); (42877, 42877, 1, 7545);
   (42878, 42886, 2, 42879); (42891, 42891, 1, 42892); (42893, 42893, 1, 613); (42896, 42898, 2, 42897);
   (42902, 42920, 2, 42903); (42922, 42922, 1, 614); (42923, 42923, 1, 604); (42924, 42924, 1, 609);
   (42925, 42925, 1, 620); (42926, 42926, 1, 618); (42928, 42928, 1, 670); (42929, 42929, 1, 647);
   (42930, 42930, 1, 669); (42931, 42931, 1, 43859); (42932, 42946, 2, 42933); (42948, 42948, 1, 42900);
   (42949, 42949, 1, 642); (42950, 42950, 1, 7566); (42951, 42953, 2, 42952); (42960, 42960, 1, 42961);
   (42966, 42968, 2, 42967); (42997, 42997, 1, 42998); (65313, 65338, 1, 65345); (66560, 66599, 1, 66600);
   (66736, 66771, 1, 66776); (66928, 66964, 2, 66967); (66929, 66938, 1, 66968); (66941, 66954, 1, 66980);
   (66957, 66962, 1, 66996); (66965, 66965, 1, 67004); (68736, 68786, 1, 68800); (71840, 71871, 1, 71872);
   (93760, 93791, 1, 93792); (125184, 125217, 1, 125218)
  ].

(** The code points with the property Case_Ignorable. *)
Definition case_ignorable_ranges : list (N * N) :=
  [
   (39, 39); (46, 46); (58, 58); (94, 94); (96, 96); (168, 168);
   (173, 173); (175, 175); (180, 180); (183, 184); (688, 879); (884, 885);
   (890, 890); (900, 901); (903, 903); (1155, 1161); (1369, 1369); (1375, 1375);
   (1425, 1469); (1471, 1471); (1473, 1474); (1476, 1477); (1479, 1479); (1524, 1524);
   (1536, 1541); (1552, 1562); (1564, 1564); (1600, 1600); (1611, 1631); (1648, 1648);
   (1750, 1757); (1759, 1768); (1770, 1773); (1807, 1807); (1809, 1809); (1840, 1866);
   (1958, 1968); (2027, 2037); (2042, 2042); (2045, 2045); (2070, 2093); (2137, 2139);
   (2184, 2184); (2192, 2193); (2200, 2207); (2249, 2306); (2362, 2362); (2364, 2364);
   (2369, 2376); (2381, 2381); (2385, 2391); (2402, 2403); (2417, 2417); (2433, 2433);
   (2492, 2492); (2497, 2500); (2509, 2509); (2530, 2531); (2558, 2558); (2561, 2562);
   (2620, 2620); (2625, 2626); (2631, 2632); (2635, 2637); (2641, 2641); (2672, 2673);
   (2677, 2677); (2689, 2690); (2748, 2748); (2753, 2757); (2759, 2760); (2765, 2765);
   (2786, 2787); (2810, 2815); (2817, 2817); (2876, 2876); (2879, 2879); (2881, 2884);
   (2893, 2893); (2901, 2902); (2914, 2915); (2946, 2946); (3008, 3008); (3021, 3021);
   (3072, 3072); (3076, 3076); (3132, 3132); (3134, 3136); (3142, 3144); (3146, 3149);
   (3157, 3158); (3170, 3171); (3201, 3201); (3260, 3260); (3263, 3263); (3270, 3270);
   (3276, 3277); (3298, 3299); (3328, 3329); (3387, 3388); (3393, 3396); (3405, 3405);
   (3426, 3427); (3457, 3457); (3530, 3530); (3538, 3540); (3542, 3542); (3633, 3633);
   (3636, 3642); (3654, 3662); (3761, 3761); (3764, 3772); (3782, 3782); (3784, 3789);
   (3864, 3865); (3893, 3893); (3895, 3895); (3897, 3897); (3953, 3966); (3968, 3972);
   (3974, 3975); (3981, 3991); (3993, 4028); (4038, 4038); (4141, 4144); (4146, 4151);
   (4153, 4154); (4157, 4158); (4184, 4185); (4190, 4192); (4209, 4212); (4226, 4226);
   (4229, 4230); (4237, 4237); (4253, 4253); (4348, 4348); (4957, 4959); (5906, 5908);
   (5938, 5939); (5970, 5971); (6002, 6003); (6068, 6069); (6071, 6077); (6086, 6086);
   (6089, 6099); (6103, 6103); (6109, 6109); (6155, 6159); (6211, 6211); (6277, 6278);
   (6313, 6313); (6432, 6434); (6439, 6440); (6450, 6450); (6457, 6459); (6679, 6680);
   (6683, 6683); (6742, 6742); (6744, 6750); (6752, 6752); (6754, 6754); (6757, 6764);
   (6771, 6780); (6783, 6783); (6823, 6823); (6832, 6862); (6912, 6915); (6964, 6964);
   (6966, 6970); (6972, 6972); (6978, 6978); (7019, 7027); (7040, 7041); (7074, 7077);
   (7080, 7081); (7083, 7085); (7142, 7142); (7144, 7145); (7149, 7149); (7151, 7153);
   (7212, 7219); (7222, 7223); (7288, 7293); (7376, 7378); (7380, 7392); (7394, 7400);
   (7405, 7405); (7412, 7412); (7416, 7417); (7468, 7530); (7544, 7544); (7579, 7679);
   (8125, 8125); (8127, 8129); (8141, 8143); (8157, 8159); (8173, 8175); (8189, 8190);
   (8203, 8207); (8216, 8217); (8228, 8228); (8231, 8231); (8234, 8238); (8288, 8292);
   (8294, 8303); (8305, 8305); (8319, 8319); (8336, 8348); (8400, 8432); (11388, 11389);
   (11503, 11505); (11631, 11631); (11647, 11647); (11744, 11775); (11823, 11823); (12293, 12293);
   (12330, 12333); (12337, 12341); (12347, 12347); (12441, 12446); (12540, 12542); (40981, 40981);
   (42232, 42237); (42508, 42508); (42607, 42610); (42612, 42621); (42623, 42623); (42652, 42655);
   (42736, 42737); (42752, 42785); (42864, 42864); (42888, 42890); (42994, 42996); (43000, 43001);
   (43010, 43010); (43014, 43014); (43019, 43019); (43045, 43046); (43052, 43052); (43204, 43205);
   (43232, 43249); (43263, 43263); (43302, 43309); (43335, 43345); (43392, 43394); (43443, 43443);
   (43446, 43449); (43452, 43453); (43471, 43471); (43493, 43494); (43561, 43566); (43569, 43570);
   (43573, 43574); (43587, 43587); (43596, 43596); (43632, 43632); (43644, 43644); (43696, 43696);
   (43698, 43700); (43703, 43704); (43710, 43711); (43713, 43713); (43741, 43741); (43756, 43757);
   (43763, 43764); (43766, 43766); (43867, 43871); (43881, 43883); (44005, 44005); (44008, 44008);
   (44013, 44013); (64286, 64286); (64434, 64450); (65024, 65039); (65043, 65043); (65056, 65071);
   (65106, 65106); (65109, 65109); (65279, 65279); (65287, 65287); (65294, 65294); (65306, 65306);
   (65342, 65342); (65344, 65344); (65392, 65392); (65438, 65439); (65507, 65507); (65529, 65531);
   (66045, 66045); (66272, 66272); (66422, 66426); (67456, 67461); (67463, 67504); (67506, 67514);
   (68097, 68099); (68101, 68102); (68108, 68111); (68152, 68154); (68159, 68159); (68325, 68326);
   (68900, 68903); (69291, 69292); (69446, 69456); (69506, 69509); (69633, 69633); (69688, 69702);
   (69744, 69744); (69747, 69748); (69759, 69761); (69811, 69814); (69817, 69818); (69821, 69821);
   (69826, 69826); (69837, 69837); (69888, 69890); (69927, 69931); (69933, 69940); (70003, 70003);
   (70016, 70017); (70070, 70078); (70089, 70092); (70095, 70095); (70191, 70193); (70196, 70196);
   (70198, 70199); (70206, 70206); (70367, 70367); (70371, 70378); (70400, 70401); (70459, 70460);
   (70464, 70464); (70502, 70508); (70512, 70516); (70712, 70719); (70722, 70724); (70726, 70726);
   (70750, 70750); (70835, 70840); (70842, 70842); (70847, 70848); (70850, 70851); (71090, 71093);
   (71100, 71101); (71103, 71104); (71132, 71133); (71219, 71226); (71229, 71229); (71231, 71232);
   (71339, 71339); (71341, 71341); (71344, 71349); (71351, 71351); (71453, 71455); (71458, 71461);
   (71463, 71467); (71727, 71735); (71737, 71738); (71995, 71996); (71998, 71998); (72003, 72003);
   (72148, 72151); (72154, 72155); (72160, 72160); (72193, 72202); (72243, 72248); (72251, 72254);
   (72263, 72263); (72273, 72278); (72281, 72283); (72330, 72342); (72344, 72345); (72752, 72758);
   (72760, 72765); (72767, 72767); (72850, 72871); (72874, 72880); (72882, 72883); (72885, 72886);
   (73009, 73014); (73018, 73018); (73020, 73021); (73023, 73029); (73031, 73031); (73104, 73105);
   (73109, 73109); (73111, 73111); (73459, 73460); (78896, 78904); (92912, 92916); (92976, 92982);
   (92992, 92995); (94031, 94031); (94095, 94111); (94176, 94177); (94179, 94180); (110576, 110579);
   (110581, 110587); (110589, 110590); (113821, 113822); (113824, 113827); (118528, 118573); (118576, 118598);
   (119143, 119145); (119155, 119170); (119173, 119179); (119210, 119213); (119362, 119364); (121344, 121398);
   (121403, 121452); (121461, 121461); (121476, 121476); (121499, 121503); (121505, 121519); (122880, 122886);
   (122888, 122904); (122907, 122913); (122915, 122916); (122918, 122922); (123184, 123197); (123566, 123566);
   (123628, 123631); (125136, 125142); (125252, 125259); (127995, 127999); (917505, 917505); (917536, 917631);
   (917760, 917999)
  ].

(** The code points with the property Cased. *)
Definition cased_ranges : list (N * N) :=
  [
   (65, 90); (97, 122); (170, 170); (181, 181); (186, 186); (192, 214);
   (216, 246); (248, 442); (444, 447); (452, 659); (661, 696); (704, 705);
   (736, 740); (837, 837); (880, 883); (886, 887); (890, 893); (895, 895);
   (902, 902); (904, 906); (908, 908); (910, 929); (931, 1013); (1015, 1153);
   (1162, 1327); (1329, 1366); (1376, 1416); (4256, 4293); (4295, 4295); (4301, 4301);
   (4304, 4346); (4349, 4351); (5024, 5109); (5112, 5117); (7296, 7304); (7312, 7354);
   (7357, 7359); (7424, 7615); (7680, 7957); (7960, 7965); (7968, 8005); (8008, 8013);
   (8016, 8023); (8025, 8025); (8027, 8027); (8029, 8029); (8031, 8061); (8064, 8116);
   (8118, 8124); (8126, 8126); (8130, 8132); (8134, 8140); (8144, 8147); (8150, 8155);
   (8160, 8172); (8178, 8180); (8182, 8188); (8305, 8305); (8319, 8319); (8336, 8348);
   (8450, 8450); (8455, 8455); (8458, 8467); (8469, 8469); (8473, 8477); (8484, 8484);
   (8486, 8486); (8488, 8488); (8490, 8493); (8495, 8500); (8505, 8505); (8508, 8511);
   (8517, 8521); (8526, 8526); (8544, 8575); (8579, 8580); (9398, 9449); (11264, 11492);
   (11499, 11502); (11506, 11507); (11520, 11557); (11559, 11559); (11565, 11565); (42560, 42605);
   (42624, 42653); (42786, 42887); (42891, 42894); (42896, 42954); (42960, 42961); (42963, 42963);
   (42965, 42969); (42997, 42998); (43000, 43002); (43824, 43866); (43868, 43880); (43888, 43967);
   (64256, 64262); (64275, 64279); (65313, 65338); (65345, 65370); (66560, 66639); (66736, 66771);
   (66776, 66811); (66928, 66938); (66940, 66954); (66956, 66962); (66964, 66965); (66967, 66977);
   (66979, 66993); (66995, 67001); (67003, 67004); (67456, 67456); (67459, 67461); (67463, 67504);
   (67506, 67514); (68736, 68786); (68800, 68850); (71840, 71903); (93760, 93823); (119808, 119892);
   (119894, 119964); (119966, 119967); (119970, 119970); (119973, 119974); (119977, 119980); (119982, 119993);
   (119995, 119995); (119997, 120003); (120005, 120069); (120071, 120074); (120077, 120084); (120086, 120092);
   (120094, 120121); (120123, 120126); (120128, 120132); (120134, 120134); (120138, 120144); (120146, 120485);
   (120488, 120512); (120514, 120538); (120540, 120570); (120572, 120596); (120598, 120628); (120630, 120654);
   (120656, 120686); (120688, 120712); (120714, 120744); (120746, 120770); (120772, 120779); (122624, 122633);
   (122635, 122654); (125184, 125251); (127280, 127305); (127312, 127337); (127344, 127369)
  ].

Definition in_ranges (ranges : list (N * N)) (c : char) : bool :=
  existsb (fun r => (fst r <=? c) && (c <=? snd r)) ranges.

Definition case_ignorable (c : char) : bool := in_ranges case_ignorable_ranges c.

Definition cased (c : char) : bool := in_ranges cased_ranges c.

Definition in_lower_range (r : N * N * N * N) (c : char) : bool :=
  let '(lo, hi, step, _) := r in
  (lo <=? c) && (c <=? hi) && ((c - lo) mod step =? 0).

Fixpoint lookup_lower (ranges : list (N * N * N * N)) (c : char) : char :=
  match ranges with
  | [] => c
  | r :: rest =>
      if in_lower_range r c
      then (let '(lo, _, _, target) := r in target + (c - lo))
      else lookup_lower rest c
  end.

(** The lowercase mapping of one code point. *)
Definition lower_full (c : char) : list char :=
  if c =? DOTTED_CAPITAL_I then [105; 775] else [lookup_lower lower_ranges c].

End Case.

Arguments lookup_lower : simpl never.
Arguments in_ranges : simpl never.
Arguments lower_full : simpl never.
Arguments case_ignorable : simpl never.
Arguments cased : simpl never.

(** Whether a cased letter follows, case-ignorable code points apart. *)
Fixpoint followed_by_cased (t : str) : bool :=
  match t with
  | [] => false
  | c :: t' => if case_ignorable c then followed_by_cased t' else cased c
  end.

(** What one code point becomes, given whether a cased letter precedes it
    and the text that follows it. *)
Definition lower_at (after_cased : bool) (c : char) (t : str) : list char :=
  if N.eqb c SIGMA
  then [if after_cased && negb (followed_by_cased t)
        then FINAL_SIGMA else SMALL_SIGMA]
  else lower_full c.

Definition next_after_cased (after_cased : bool) (c : char) : bool :=
  if case_ignorable c then after_cased else cased c.

Fixpoint lower_from (after_cased : bool) (s : str) : str :=
  match s with
  | [] => []
  | c :: t => lower_at after_cased c t ++ lower_from (next_after_cased after_cased c) t
  end.

(** [s.lower()] *)
Definition lower (s : str) : str := lower_from false s.

(** The simple lowercase mappings, pair by pair. *)
Definition expand_lower_range (r : N * N * N * N) : list (N * N) :=
  let '(lo, hi, step, target) := r in
  map (fun k => (lo + N.of_nat k * step, target + N.of_nat k * step)%N)
    (seq 0 (S (N.to_nat ((hi - lo) / step)))).

Definition lower_pairs : list (N * N) := flat_map expand_lower_range lower_ranges.

(** A code point that lowercasing leaves as it is, wherever it stands. *)
Definition fixed_char (c : char) : bool :=
  negb (N.eqb c SIGMA) && str_eqb (lower_full c) [c].

(** A code point that lowercasing gives out for one that is not whitespace. *)
Definition word_char (r : char) : bool := negb (isspace r) && fixed_char r.

Definition whitespace_chars : list char :=
  [9; 10; 11; 12; 13; 28; 29; 30; 31; 32; 133; 160; 5760; 8192; 8193; 8194;
   8195; 8196; 8197; 8198; 8199; 8200; 8201; 8202; 8232; 8233; 8239; 8287;
   12288]%N.

(** [s.lstrip()], [s.rstrip()], [s.strip()] *)
Fixpoint lstrip (s : str) : str :=
  match s with
  | [] => []
  | c :: t => if isspace c then lstrip t else s
  end.

Definition rstrip (s : str) : str := rev (lstrip (rev s)).

Definition strip (s : str) : str := rstrip (lstrip s).

(** [re.sub(r'\s+', ' ', s)]: every maximal run of whitespace becomes one
    space.  The scanner remembers whether it is inside a run. *)
Fixpoint sub_ws_from (in_run : bool) (s : str) : str :=
  match s with
  | [] => []
  | c :: t =>
      if isspace c
      then (if in_run then sub_ws_from true t else SPACE :: sub_ws_from true t)
      else c :: sub_ws_from false t
  end.

Definition re_sub_ws (s : str) : str := sub_ws_from false s.

(** [s.split()] without argument: the maximal runs of non-whitespace. *)
Definition starts_word (s : str) : bool :=
  match s with
  | [] => false
  | c :: _ => negb (isspace c)
  end.

Fixpoint words (s : str) : list str :=
  match s with
  | [] => []
  | c :: t =>
      if isspace c then words t
      else if starts_word t
           then match words t with
                | w :: ws => (c :: w) :: ws
                | [] => [[c]]
                end
           else [c] :: words t
  end.

(** [' '.join(ws)] *)
Fixpoint join_sp (ws : list str) : str :=
  match ws with
  | [] => []
  | [w] => w
  | w :: rest => w ++ SPACE :: join_sp rest
  end.

(** [''.join(parts)] *)
Definition join_empty (parts : list str) : str := concat parts.

(** [s.startswith(prefix)] *)
Fixpoint startswith (s prefix : str) {struct prefix} : bool :=
  match prefix, s with
  | [], _ => true
  | x :: p', y :: s' => N.eqb x y && startswith s' p'
  | _ :: _, [] => false
  end.

(** [sub in s] *)
Fixpoint str_in (sub s : str) : bool :=
  startswith s sub
  || match s with
     | [] => false
     | _ :: t => str_in sub t
     end.

(** [s.split(sep)] for a separator of one character *)
Fixpoint split_char (sep : char) (s : str) : list str :=
  match s with
  | [] => [[]]
  | c :: t =>
      if N.eqb c sep then [] :: split_char sep t
      else match split_char sep t with
           | l :: ls => (c :: l) :: ls
           | [] => [[c]]
           end
  end.

(** [s[:n]] for a non-negative [n] *)
Definition slice_to (n : nat) (s : str) : str := firstn n s.

(** [str(n)] of a non-negative integer *)
Definition str_of_nat (n : nat) : str :=
  lit (NilEmpty.string_of_uint (Nat.to_uint n)).

Section Numerals.
Open Scope N_scope.

Definition isdigit_ascii (c : char) : bool := (48 <=? c) && (c <=? 57).

(** Digits of an integer literal, with single underscores between digits. *)
Fixpoint parse_digits (acc : Z) (after_digit : bool) (s : str) : option Z :=
  match s with
  | [] => if after_digit then Some acc else None
  | c :: t =>
      if isdigit_ascii c
      then parse_digits (10 * acc + Z.of_N (c - 48))%Z true t
      else if (c =? 95) && after_digit then parse_digits acc false t
      else None
  end.

(** [int(s)] on a text of ASCII digits: surrounding whitespace, an optional
    sign, then the digits; [None] stands for [ValueError]. *)
Definition int_of_str (s : str) : option Z :=
  match strip s with
  | c :: t =>
      if c =? 45 then option_map Z.opp (parse_digits 0 false t)
      else if c =? 43 then parse_digits 0 false t
      else parse_digits 0 false (c :: t)
  | [] => None
  end.

End Numerals.

End Py.

Import Py.

(** ** Exceptions and fallible computations *)

Inductive exn : Type :=
| IndexError (msg : str)
| ValueError (msg : str)
| CalledProcessError (msg : str)
| OSError (msg : str)
| Exception (msg : str).

(** [str(e)] *)
Definition exn_str (e : exn) : str :=
  match e with
  | IndexError m | ValueError m | CalledProcessError m | OSError m | Exception m => m
  end.

Inductive result (A : Type) : Type :=
| Ok (a : A)
| Raise (e : exn).
Arguments Ok {A} a.
Arguments Raise {A} e.

Definition bind {A B : Type} (c : result A) (k : A -> result B) : result B :=
  match c with
  | Ok a => k a
  | Raise e => Raise e
  end.

Declare Scope py_scope.
Delimit Scope py_scope with py.
Notation "x <- c ;; k" := (bind c (fun x => k))
  (at level 61, c at next level, right associativity) : py_scope.
Notation "' p <- c ;; k" := (bind c (fun x => let p := x in k))
  (at level 61, p pattern, c at next level, right associativity) : py_scope.
Open Scope py_scope.

(** [l[i]] with Python's indexing from the end for negative [i]. *)
Definition getitem {A : Type} (l : list A) (i : Z) : result A :=
  let n := Z.of_nat (length l) in
  let pos := if (i <? 0)%Z then (n + i)%Z else i in
  if ((0 <=? pos) && (pos <? n))%Z
  then match nth_error l (Z.to_nat pos) with
       | Some x => Ok x
       | None => Raise (IndexError (lit "list index out of range"))
       end
  else Raise (IndexError (lit "list index out of range")).

(** [d.get(key)] on a dictionary kept in insertion order *)
Definition dict (V : Type) : Type := list (str * V).

Fixpoint dict_get {V : Type} (d : dict V) (key : str) : option V :=
  match d with
  | [] => None
  | (k, v) :: rest => if str_eqb k key then Some v else dict_get rest key
  end.

(** [d[key] = v]: this overwrites the entry of an existing key in place, and
    appends a new key. *)
Fixpoint dict_set {V : Type} (d : dict V) (key : str) (v : V) : dict V :=
  match d with
  | [] => [(key, v)]
  | (k, v0) :: rest =>
      if str_eqb k key then (k, v) :: rest else (k, v0) :: dict_set rest key v
  end.

(** ** Data model: notebooks *)

Inductive Output : Type :=
| OStream (text : str)
| OExecuteResult (data : dict str)
| ODisplayData (data : dict str)
| OError (ename evalue : str).

Inductive CellType : Type := code | markdown | raw.

Definition CellType_eqb (a b : CellType) : bool :=
  match a, b with
  | code, code | markdown, markdown | raw, raw => true
  | _, _ => false
  end.

(** A cell; [outputs] is empty where the cell has no [outputs] key. *)
Record Cell : Type := {
  cell_type : CellType;
  source : str;
  outputs : list Output
}.

Record NotebookNode : Type := { cells : list Cell }.

Record Path : Type := { parent : str; name : str }.

(** What lies outside the program: the file system with [nbformat.read], the
    kernel behind [ExecutePreprocessor.preprocess], and the processes started
    by [subprocess.run(..., check=True)], which returns the standard output
    of the command or raises. *)
Record World : Type := {
  nbformat_read : Path -> result NotebookNode;
  preprocess : nat -> NotebookNode -> str -> result NotebookNode;
  subprocess_run : list str -> Path -> result str
}.

(** ** Data model: configuration and results *)

Inductive ExpectedOutputs : Type :=
| ExpStr (s : str)
| ExpList (l : list str).

Record QuestionConfig : Type := {
  cfg_type : str;
  cfg_cell_index : Z;
  cfg_expected_outputs : option ExpectedOutputs;
  cfg_points : option Z;
  cfg_description : str
}.

Record TestConfig : Type := { cfg_questions : option (dict QuestionConfig) }.

Record QuestionResult : Type := {
  passed : bool;
  score : Z;
  q_max_score : Z;
  feedback : list str
}.

Record NotebookResult : Type := {
  notebook : str;
  executed : bool;
  questions : dict QuestionResult;
  overall_score : Z;
  max_score : Z;
  errors : list str
}.

Record CommitAnalysis : Type := {
  commit_count : Z;
  meets_minimum : bool;
  descriptive_count : Z;
  descriptive_ratio : Q;
  messages : list str;
  error : option str
}.

(** ** The notebook executor *)

Definition execute_notebook (w : World) (notebook_path : Path) (timeout : nat)
  : result NotebookNode :=
  nb <- nbformat_read w notebook_path ;;
  match preprocess w timeout nb (parent notebook_path) with
  | Ok nb' => Ok nb'
  | Raise e =>
      Raise (Exception (lit "Error executing " ++ name notebook_path
                        ++ lit ": " ++ exn_str e))
  end.

(** ** The cell extractor *)

Fixpoint collect_output_text (outs : list Output) : list str :=
  match outs with
  | [] => []
  | OStream text :: rest => text :: collect_output_text rest
  | OExecuteResult data :: rest =>
      match dict_get data (lit "text/plain") with
      | Some t => t
      | None => []
      end :: collect_output_text rest
  | ODisplayData data :: rest =>
      match dict_get data (lit "text/plain") with
      | Some t => t
      | None => []
      end :: collect_output_text rest
  | OError _ _ :: rest => collect_output_text rest
  end.

Definition get_cell_output (nb : NotebookNode) (cell_index : Z) : result str :=
  if (Z.of_nat (length (cells nb)) <=? cell_index)%Z then Ok []
  else
    cell <- getitem (cells nb) cell_index ;;
    if negb (CellType_eqb (cell_type cell) code) then Ok []
    else Ok (strip (join_empty (collect_output_text (outputs cell)))).

Definition get_cell_source (nb : NotebookNode) (cell_index : Z) : result str :=
  if (Z.of_nat (length (cells nb)) <=? cell_index)%Z then Ok []
  else
    cell <- getitem (cells nb) cell_index ;;
    Ok (source cell).

(** ** The matcher *)

Definition check_output_matches (actual expected : str) (flexible : bool) : bool :=
  if flexible then
    let actual_normalized := re_sub_ws (strip (lower actual)) in
    let expected_normalized := re_sub_ws (strip (lower expected)) in
    str_eqb actual_normalized expected_normalized
  else
    str_eqb (strip actual) (strip expected).

(** ** The answer checkers *)

Definition ELLIPSIS : str := lit "...".
Definition TRIPLE_DOUBLE_QUOTE : str := [34; 34; 34]%N.
Definition TRIPLE_SINGLE_QUOTE : str := lit "'''".

Definition check_code_contains_ellipsis (source : str) : bool :=
  str_in ELLIPSIS source
  && negb (str_in TRIPLE_DOUBLE_QUOTE source || str_in TRIPLE_SINGLE_QUOTE source).

Definition PLACEHOLDER : str := lit "< your answer >".

Definition check_essay_answered (nb : NotebookNode) (cell_index : Z) (min_length : nat)
  : result (bool * str) :=
  if (Z.of_nat (length (cells nb)) <=? cell_index)%Z then Ok (false, [])
  else
    cell <- getitem (cells nb) cell_index ;;
    if negb (CellType_eqb (cell_type cell) markdown) then Ok (false, [])
    else
      let answer := strip (source cell) in
      if str_in PLACEHOLDER (lower answer) then Ok (false, answer)
      else if (length answer <? min_length)%nat then Ok (false, answer)
      else Ok (true, answer).

(** ** The style lint

    The three regular expressions are embedded as the scanners they denote.
    [\b] needs the word characters [\w], embedded for the code points below
    256. *)

Module Lint.
Section Scanners.
Open Scope N_scope.

Definition is_lower_az (c : char) : bool := (97 <=? c) && (c <=? 122).
Definition is_upper_AZ (c : char) : bool := (65 <=? c) && (c <=? 90).
Definition is_alpha_az (c : char) : bool := is_lower_az c || is_upper_AZ c.
Definition is_alnum_az (c : char) : bool := is_alpha_az c || isdigit_ascii c.

(** [\w] *)
Definition is_word (c : char) : bool :=
  is_alnum_az c || (c =? 95)
  || (c =? 170) || (c =? 178) || (c =? 179) || (c =? 181)
  || (c =? 185) || (c =? 186) || ((188 <=? c) && (c <=? 190))
  || ((192 <=? c) && (c <=? 214)) || ((216 <=? c) && (c <=? 246))
  || ((248 <=? c) && (c <=? 255)).

(** [re.search('[a-zA-Z0-9]' + op + '[a-zA-Z0-9]', line)] *)
Fixpoint tight_operator (op : char) (line : str) : bool :=
  match line with
  | a :: t =>
      match t with
      | o :: b :: _ => is_alnum_az a && (o =? op) && is_alnum_az b
      | _ => false
      end
      || tight_operator op t
  | [] => false
  end.

(** [line.replace('==', '')] *)
Fixpoint remove_double_equals (line : str) : str :=
  match line with
  | a :: t =>
      match t with
      | b :: t' =>
          if (a =? 61) && (b =? 61) then remove_double_equals t'
          else a :: remove_double_equals t
      | [] => [a]
      end
  | [] => []
  end.

Fixpoint drop_while (p : char -> bool) (s : str) : str :=
  match s with
  | c :: t => if p c then drop_while p t else s
  | [] => []
  end.

(** A match of [var_pattern] without its leading word boundary, anchored at
    the start of [s]: lowercase letters, one capital, letters, whitespace and
    the equals sign.  Every repeated class is followed by a character outside
    it, so the only match is the greedy one. *)
Definition match_mixed_case_assignment (s : str) : bool :=
  match s with
  | c :: t =>
      is_lower_az c
      && match drop_while is_lower_az t with
         | u :: t1 =>
             is_upper_AZ u
             && match drop_while isspace (drop_while is_alpha_az t1) with
                | e :: _ => e =? 61
                | [] => false
                end
         | [] => false
         end
  | [] => false
  end.

(** [re.search(var_pattern, line)]; [after_word] tells whether the character
    before the current position is a word character, which decides the word
    boundary. *)
Fixpoint search_mixed_case_assignment (after_word : bool) (line : str) : bool :=
  match line with
  | c :: t =>
      (negb after_word && match_mixed_case_assignment line)
      || search_mixed_case_assignment (is_word c) t
  | [] => false
  end.

End Scanners.

Definition lint_line (i : nat) (line : str) : list str :=
  match strip line with
  | [] => []
  | c :: _ =>
      if N.eqb c 35%N then []
      else
        (if (100 <? length line)%nat
         then [lit "Line " ++ str_of_nat i ++ lit " is very long ("
               ++ str_of_nat (length line)
               ++ lit " chars). Consider breaking it up."]
         else [])
        ++ (if (tight_operator 43%N line
                || tight_operator 61%N (remove_double_equals line))
               && negb (str_in (lit "==") line)
            then [lit "Line " ++ str_of_nat i
                  ++ lit ": Consider adding spaces around operators for readability."]
            else [])
        ++ (if search_mixed_case_assignment false line
            then [lit "Line " ++ str_of_nat i
                  ++ lit ": Consider using snake_case for variable names (e.g., my_variable)."]
            else [])
  end.

Fixpoint lint_lines (i : nat) (lines : list str) : list str :=
  match lines with
  | [] => []
  | line :: rest => lint_line i line ++ lint_lines (S i) rest
  end.

End Lint.

Definition run_basic_linting (source : str) : list str :=
  let lines := split_char NEWLINE source in
  firstn 3 (Lint.lint_lines 1 lines).

(** ** The commit analyzer *)

Definition generic_words : list str :=
  [lit "update"; lit "done"; lit "fix"; lit "wip"; lit "change"; lit "commit";
   lit "save"].

(** [x in xs] for a list of strings *)
Definition str_in_list (x : str) (xs : list str) : bool := existsb (str_eqb x) xs.

Definition is_descriptive (msg : str) : bool :=
  let is_generic := str_in_list (strip (lower msg)) generic_words in
  let is_long_enough := (10 <=? length (strip msg))%nat in
  is_long_enough && negb is_generic.

(** The counting loop over [messages]. *)
Fixpoint count_descriptive (messages : list str) (descriptive_count : Z) : Z :=
  match messages with
  | [] => descriptive_count
  | msg :: rest =>
      count_descriptive rest
        (if is_descriptive msg then descriptive_count + 1 else descriptive_count)%Z
  end.

Definition GIT_REV_LIST : list str :=
  [lit "git"; lit "rev-list"; lit "--count"; lit "HEAD"].
Definition GIT_LOG : list str := [lit "git"; lit "log"; lit "--pretty=format:%s"].

(** The body of the [try] block; [int()] raises [ValueError]. *)
Definition analyze_commits_body (w : World) (repo_path : Path) (min_commits : Z)
  : result CommitAnalysis :=
  stdout <- subprocess_run w GIT_REV_LIST repo_path ;;
  commit_count <-
    match int_of_str (strip stdout) with
    | Some n => Ok n
    | None =>
        Raise (ValueError (lit "invalid literal for int() with base 10: '"
                           ++ strip stdout ++ lit "'"))
    end ;;
  stdout <- subprocess_run w GIT_LOG repo_path ;;
  let messages := split_char NEWLINE (strip stdout) in
  let descriptive_count := count_descriptive messages 0 in
  Ok {| commit_count := commit_count;
        meets_minimum := (min_commits <=? commit_count)%Z;
        descriptive_count := descriptive_count;
        descriptive_ratio :=
          if (0 <? commit_count)%Z
          then Qmake descriptive_count (Z.to_pos commit_count)
          else 0%Q;
        messages := messages;
        error := None |}.

(** The quotient of two integers is kept exact, as a rational. *)
Definition analyze_commits (w : World) (repo_path : Path) (min_commits : Z)
  : result CommitAnalysis :=
  match analyze_commits_body w repo_path min_commits with
  | Raise (CalledProcessError msg) =>
      Ok {| commit_count := 0;
            meets_minimum := false;
            descriptive_count := 0;
            descriptive_ratio := 0%Q;
            messages := [];
            error := Some (exn_str (CalledProcessError msg)) |}
  | r => r
  end.

(** ** The grading orchestrator *)

Definition CHECK_MARK : char := 10003%N.

Definition append_feedback (r : QuestionResult) (lines : list str) : QuestionResult :=
  {| passed := passed r;
     score := score r;
     q_max_score := q_max_score r;
     feedback := feedback r ++ lines |}.

Definition mark_passed (r : QuestionResult) : QuestionResult :=
  {| passed := true;
     score := q_max_score r;
     q_max_score := q_max_score r;
     feedback := feedback r |}.

(** [question_config.get('points', 1)] *)
Definition points_of (question_config : QuestionConfig) : Z :=
  match cfg_points question_config with
  | Some p => p
  | None => 1%Z
  end.

(** [question_config.get('expected_outputs', [])], a single string being
    wrapped into a list. *)
Definition expected_outputs_of (question_config : QuestionConfig) : list str :=
  match cfg_expected_outputs question_config with
  | None => []
  | Some (ExpStr s) => [s]
  | Some (ExpList l) => l
  end.

(** The search loop over [expected_outputs], left at the first match. *)
Fixpoint first_match (output : str) (expected_outputs : list str) : bool :=
  match expected_outputs with
  | [] => false
  | expected :: rest =>
      if check_output_matches output expected true then true
      else first_match output rest
  end.

(** The body of the loop over the questions, up to the point where the
    result is recorded: the [question_result] of one question, or the
    exception that leaves the loop. *)
Definition grade_question (nb : NotebookNode) (question_config : QuestionConfig)
  : result QuestionResult :=
  let question_result :=
    {| passed := false;
       score := 0;
       q_max_score := points_of question_config;
       feedback := [] |} in
  if str_eqb (cfg_type question_config) (lit "code") then
    let cell_index := cfg_cell_index question_config in
    source <- get_cell_source nb cell_index ;;
    if check_code_contains_ellipsis source then
      Ok (append_feedback question_result
            [lit "Code still contains '...' placeholder"])
    else
      output <- get_cell_output nb cell_index ;;
      let expected_outputs := expected_outputs_of question_config in
      let matched := first_match output expected_outputs in
      question_result <-
        (if matched then
           Ok (append_feedback (mark_passed question_result)
                 [CHECK_MARK :: lit " Correct output"])
         else
           first <- getitem expected_outputs 0 ;;
           Ok (append_feedback question_result
                 [lit "Expected output like: " ++ slice_to 50 first ++ lit "...";
                  lit "Got: " ++ slice_to 50 output ++ lit "..."])) ;;
      let linting_suggestions := run_basic_linting source in
      match linting_suggestions with
      | [] => Ok question_result
      | _ :: _ =>
          Ok (append_feedback question_result
                (lit "Code quality suggestions:" :: linting_suggestions))
      end
  else if str_eqb (cfg_type question_config) (lit "essay") then
    let cell_index := cfg_cell_index question_config in
    answered_and_text <- check_essay_answered nb cell_index 20 ;;
    if fst answered_and_text then
      Ok (append_feedback (mark_passed question_result)
            [CHECK_MARK :: lit " Answer provided (requires manual review)"])
    else
      Ok (append_feedback question_result [lit "No answer provided or too short"])
  else Ok question_result.

Definition add_max_score (results : NotebookResult) (points : Z) : NotebookResult :=
  {| notebook := notebook results;
     executed := executed results;
     questions := questions results;
     overall_score := overall_score results;
     max_score := max_score results + points;
     errors := errors results |}.

Definition record_question (results : NotebookResult) (question_id : str)
    (question_result : QuestionResult) : NotebookResult :=
  {| notebook := notebook results;
     executed := executed results;
     questions := dict_set (questions results) question_id question_result;
     overall_score := overall_score results + score question_result;
     max_score := max_score results;
     errors := errors results |}.

Definition set_executed (results : NotebookResult) : NotebookResult :=
  {| notebook := notebook results;
     executed := true;
     questions := questions results;
     overall_score := overall_score results;
     max_score := max_score results;
     errors := errors results |}.

Definition append_error (results : NotebookResult) (e : exn) : NotebookResult :=
  {| notebook := notebook results;
     executed := executed results;
     questions := questions results;
     overall_score := overall_score results;
     max_score := max_score results;
     errors := errors results ++ [exn_str e] |}.

(** The loop over the configured questions, threading the mutable [results];
    an exception leaves the loop with what was recorded so far. *)
Fixpoint grade_questions (nb : NotebookNode) (qs : dict QuestionConfig)
    (results : NotebookResult) : NotebookResult * option exn :=
  match qs with
  | [] => (results, None)
  | (question_id, question_config) :: rest =>
      let results := add_max_score results (points_of question_config) in
      match grade_question nb question_config with
      | Raise e => (results, Some e)
      | Ok question_result =>
          grade_questions nb rest (record_question results question_id question_result)
      end
  end.

(** [test_config.get('questions', {})] *)
Definition questions_of (test_config : TestConfig) : dict QuestionConfig :=
  match cfg_questions test_config with
  | Some qs => qs
  | None => []
  end.

Definition test_notebook (w : World) (notebook_path : Path) (test_config : TestConfig)
  : NotebookResult :=
  let results :=
    {| notebook := name notebook_path;
       executed := false;
       questions := [];
       overall_score := 0;
       max_score := 0;
       errors := [] |} in
  match execute_notebook w notebook_path 600 with
  | Raise e => append_error results e
  | Ok nb =>
      let results := set_executed results in
      match grade_questions nb (questions_of test_config) results with
      | (results, None) => results
      | (results, Some e) => append_error results e
      end
  end.

(** ** Specification-side definitions *)

(** The normal form in the words of the specification: collapse whitespace
    runs, lowercase, trim. *)
Definition normalize_spec (s : str) : str := strip (lower (re_sub_ws s)).

(** Two texts differ only in whitespace runs and letter case when their
    whitespace-separated words agree up to case. *)
Definition same_words_up_to_case (a b : str) : Prop :=
  map lower (words a) = map lower (words b).

(** The whitespace-separated words joined by single spaces. *)
Definition canonical (s : str) : str := join_sp (words s).

(** What follows a non-whitespace character in the canonical form. *)
Definition canonical_rest (t : str) : str :=
  if starts_word t then canonical t
  else if forallb isspace t then []
  else SPACE :: canonical t.

(** [sub] occurs in [s]. *)
Definition occurs_in (sub s : str) : Prop := exists p q, s = p ++ sub ++ q.

(** A descriptive commit message in the words of the specification. *)
Definition is_descriptive_spec (msg : str) : bool :=
  (10 <=? length (strip msg))%nat
  && negb (str_in_list (lower (strip msg)) generic_words).

Definition sum_scores (qs : dict QuestionResult) : Z :=
  fold_right (fun kv acc => (score (snd kv) + acc)%Z) 0%Z qs.

Definition sum_points (qs : dict QuestionConfig) : Z :=
  fold_right (fun kv acc => (points_of (snd kv) + acc)%Z) 0%Z qs.

(** The keys of a dictionary are distinct. *)
Definition dict_wf {V : Type} (d : dict V) : Prop := NoDup (map fst d).

(** The points of every configured question are positive, as the data model
    of question configurations requires. *)
Definition points_positive (qs : dict QuestionConfig) : Prop :=
  Forall (fun kv => (0 < points_of (snd kv))%Z) qs.
(** What the loop over the questions leaves behind, one component at a
    time: the results recorded before the first exception, the points of the
    questions reached, and the exception that ended the loop. *)
Fixpoint graded (nb : NotebookNode) (qs : dict QuestionConfig) : dict QuestionResult :=
  match qs with
  | [] => []
  | (question_id, question_config) :: rest =>
      match grade_question nb question_config with
      | Ok question_result => (question_id, question_result) :: graded nb rest
      | Raise _ => []
      end
  end.

Fixpoint reached_points (nb : NotebookNode) (qs : dict QuestionConfig) : Z :=
  match qs with
  | [] => 0
  | (_, question_config) :: rest =>
      points_of question_config
      + match grade_question nb question_config with
        | Ok _ => reached_points nb rest
        | Raise _ => 0
        end
  end.

Fixpoint first_exception (nb : NotebookNode) (qs : dict QuestionConfig) : option exn :=
  match qs with
  | [] => None
  | (_, question_config) :: rest =>
      match grade_question nb question_config with
      | Ok _ => first_exception nb rest
      | Raise e => Some e
      end
  end.

(** ** Sample inputs *)

Module Examples.

Definition hello_cell : Cell :=
  {| cell_type := code;
     source := lit "print('Hello' + ' ' + 'World')";
     outputs := [OStream (lit "Hello World" ++ [NEWLINE])] |}.

Definition placeholder_cell : Cell :=
  {| cell_type := code;
     source := lit "print(...)";
     outputs := [OStream (lit "Hello World" ++ [NEWLINE])] |}.

Definition essay_cell : Cell :=
  {| cell_type := markdown;
     source := lit "The plus sign adds numbers and joins strings.";
     outputs := [] |}.

Definition nb : NotebookNode :=
  {| cells := [hello_cell; placeholder_cell; essay_cell] |}.

Definition empty_nb : NotebookNode := {| cells := [] |}.

Definition nb_path : Path :=
  {| parent := lit "01_elements"; name := lit "01_excercises_print.ipynb" |}.

Definition repo_path : Path := {| parent := lit "/home"; name := lit "repo" |}.

Definition five_messages : list str :=
  [lit "fix"; lit "wip";
   lit "added sphere volume calculation with proper docstring";
   lit "update"; lit "done"].

(** [git log] prints the subjects one per line. *)
Definition five_subjects : str :=
  lit "fix" ++ NEWLINE :: lit "wip" ++ NEWLINE
  :: lit "added sphere volume calculation with proper docstring" ++ NEWLINE
  :: lit "update" ++ NEWLINE :: lit "done".

Definition git_five_commits (cmd : list str) (cwd : Path) : result str :=
  if str_in_list (lit "rev-list") cmd then Ok (lit "5" ++ [NEWLINE])
  else Ok five_subjects.

Definition git_not_a_repository (cmd : list str) (cwd : Path) : result str :=
  Raise (CalledProcessError
           (lit "Command '['git', 'rev-list', '--count', 'HEAD']' returned non-zero exit status 128.")).


(** A world in which the notebook runs. *)
Definition world_ok : World :=
  {| nbformat_read := fun _ => Ok nb;
     preprocess := fun _ nb _ => Ok nb;
     subprocess_run := git_five_commits |}.

(** A world in which the kernel gives up on the notebook. *)
Definition world_failing : World :=
  {| nbformat_read := fun _ => Ok nb;
     preprocess := fun _ _ _ => Raise (Exception (lit "Cell execution timed out"));
     subprocess_run := git_not_a_repository |}.


Definition q_hello : QuestionConfig :=
  {| cfg_type := lit "code";
     cfg_cell_index := 0;
     cfg_expected_outputs := Some (ExpList [lit "Hello World"]);
     cfg_points := Some 2%Z;
     cfg_description := lit "Print 'Hello World' using concatenation" |}.

Definition q_placeholder : QuestionConfig :=
  {| cfg_type := lit "code";
     cfg_cell_index := 1;
     cfg_expected_outputs := Some (ExpList [lit "Hello World"]);
     cfg_points := Some 2%Z;
     cfg_description := lit "Print 'Hello World' without concatenation" |}.

Definition q_essay : QuestionConfig :=
  {| cfg_type := lit "essay";
     cfg_cell_index := 2;
     cfg_expected_outputs := None;
     cfg_points := Some 2%Z;
     cfg_description := lit "Explain operator overloading" |}.

(** A code question whose list of expected outputs is empty. *)
Definition q_no_expected : QuestionConfig :=
  {| cfg_type := lit "code";
     cfg_cell_index := 0;
     cfg_expected_outputs := Some (ExpList []);
     cfg_points := Some 2%Z;
     cfg_description := lit "Print anything" |}.

Definition config : TestConfig :=
  {| cfg_questions :=
       Some [(lit "Q1", q_hello); (lit "Q2", q_placeholder); (lit "Q3", q_essay)] |}.

Definition config_no_expected : TestConfig :=
  {| cfg_questions := Some [(lit "Q1", q_no_expected); (lit "Q2", q_hello)] |}.

End Examples.

(** ** The assignment configuration ([assignment_config.py])

    The module is a record: its name and its table of test configurations
    are what the runner reads. *)

Record ConfigModule : Type := {
  ASSIGNMENT_NAME : str;
  TEST_CONFIGS : dict TestConfig
}.

(** [config.get("questions")] as a truth value: the key is present and its
    dictionary is not empty. *)
Definition has_questions (config : TestConfig) : bool :=
  match cfg_questions config with
  | Some (_ :: _) => true
  | _ => false
  end.

Definition get_notebook_config (m : ConfigModule) (notebook_path : str) : TestConfig :=
  match dict_get (TEST_CONFIGS m) notebook_path with
  | Some config => config
  | None => {| cfg_questions := Some [] |}
  end.

Definition get_all_configured_notebooks (m : ConfigModule) : list str :=
  map fst (filter (fun kv => has_questions (snd kv)) (TEST_CONFIGS m)).

Module Week1.
Local Open Scope string_scope.

Definition essay (cell_index points : Z) (description : string) : QuestionConfig :=
  {| cfg_type := lit "essay";
     cfg_cell_index := cell_index;
     cfg_expected_outputs := None;
     cfg_points := Some points;
     cfg_description := lit description |}.

Definition code_question (cell_index : Z) (expected_outputs : list string)
    (points : Z) (description : string) : QuestionConfig :=
  {| cfg_type := lit "code";
     cfg_cell_index := cell_index;
     cfg_expected_outputs := Some (ExpList (map lit expected_outputs));
     cfg_points := Some points;
     cfg_description := lit description |}.

Definition markdown_questions : dict QuestionConfig :=
  [(lit "Q1", essay 7 3 "Create formatted table with rankings");
   (lit "Q2", essay 9 2 "Display quote with proper formatting");
   (lit "Q3", essay 11 2 "Integrate image from URL")].

Definition print_questions : dict QuestionConfig :=
  [(lit "Q1", code_question 3 ["Hello World"] 2
                "Print 'Hello World' using concatenation");
   (lit "Q2", essay 5 2 "Explain operator overloading");
   (lit "Q3", code_question 8 ["Hello World"] 2
                "Print 'Hello World' without concatenation");
   (lit "Q4", code_question 11 ["1 2 3 4 5 6 7 8 9 10"; "12345678910"] 2
                "Print 1-10 on one line")].

Definition for_loops_questions : dict QuestionConfig :=
  [(lit "Q1", code_question 8 ["3 12 6 9"; "31269"; "3  12  6  9"] 2
                "Print numbers divisible by 3");
   (lit "Q2", code_question 10 ["7 8 5 3 2 6 9 1 4"; "785326914"] 2
                "Print single-digit numbers");
   (lit "Q3", code_question 13 ["1 3 5 7 9 11"; "1357911"] 2
                "Print odd numbers from sorted list");
   (lit "Q4", code_question 16 ["0 1 2 3 4 5 6 7 8 9"; "0123456789"] 1
                "Print 0-9 on one line");
   (lit "Q5", code_question 18 ["0 1 2 3 4 5 6 7 8 9"; "0123456789"] 2
                "Use range() to print 0-9");
   (lit "Q6", code_question 20 ["1 2 3 4 5 6 7 8 9 10"; "12345678910"] 2
                "Use range() to print 1-10");
   (lit "Q7", code_question 22 ["2 4 6 8 10"; "246810"] 2
                "Use range() with step to print even numbers")].

Definition calculator_questions : dict QuestionConfig :=
  [(lit "Q1", code_question 8 ["99.80164096"; "99.8016"; "99.80"] 2
                "Calculate volume of sphere");
   (lit "Q2.1", code_question 12 ["25"] 2
                  "Calculate (b-a)//9 ** 2 in one expression");
   (lit "Q2.2", code_question 15 ["25"] 1
                  "Use underscore to reference previous result");
   (lit "Q2.3a", code_question 17 ["45"] 1 "First step: b - a");
   (lit "Q2.3b", code_question 18 ["5"] 1 "Second step: divide by 9");
   (lit "Q2.3c", code_question 19 ["25"] 1 "Third step: square the result")].

(** The module [assignment_config] as shipped. *)
Definition assignment_config : ConfigModule :=
  {| ASSIGNMENT_NAME := lit "Week 1: Intro to Python";
     TEST_CONFIGS :=
       [(lit "00_intro/01_excercises_markdown.ipynb",
         {| cfg_questions := Some markdown_questions |});
        (lit "01_elements/01_excercises_print.ipynb",
         {| cfg_questions := Some print_questions |});
        (lit "01_elements/02_excercises_for-loops.ipynb",
         {| cfg_questions := Some for_loops_questions |});
        (lit "01_elements/04_exercises_calculator.ipynb",
         {| cfg_questions := Some calculator_questions |})] |}.

End Week1.

(** ** The report ([format_results_for_display])

    The percentages are printed from floating-point quotients; their text is
    taken from outside, as a function of the two integers, and is asked for
    only when the divisor is not zero.  A zero divisor raises
    [ZeroDivisionError], the only exception of the report and of the runner. *)

Inductive arith (A : Type) : Type :=
| Value (a : A)
| ZeroDivisionError.
Arguments Value {A} a.
Arguments ZeroDivisionError {A}.

Record FloatFormat : Type := {
  percent_0f : Z -> Z -> str;
  percent_1f : Z -> Z -> str
}.

(** [str(n)] of an integer *)
Definition str_of_Z (n : Z) : str := lit (NilEmpty.string_of_int (Z.to_int n)).

(** ['\n'.join(lines)] *)
Fixpoint join_nl (lines : list str) : str :=
  match lines with
  | [] => []
  | [l] => l
  | l :: rest => l ++ NEWLINE :: join_nl rest
  end.

(** ['=' * n] *)
Definition rule (n : nat) : str := repeat 61%N n.

Definition CROSS_MARK : char := 10060%N.
Definition BALLOT_X : char := 10007%N.

Definition question_lines (entry : str * QuestionResult) : list str :=
  let (q_id, q_result) := entry in
  let status := if passed q_result then CHECK_MARK else BALLOT_X in
  (NEWLINE :: status :: lit " " ++ q_id ++ lit ": " ++ str_of_Z (score q_result)
     ++ lit "/" ++ str_of_Z (q_max_score q_result) ++ lit " points")
  :: map (fun feedback => lit "  " ++ feedback) (feedback q_result).

Definition format_results_for_display (ff : FloatFormat) (results : NotebookResult)
  : arith str :=
  let output :=
    [NEWLINE :: rule 60; lit "Results for: " ++ notebook results; rule 60] in
  if negb (executed results) then
    let output :=
      output ++ [CROSS_MARK :: lit " Failed to execute notebook"]
      ++ map (fun error => lit "  Error: " ++ error) (errors results) in
    Value (join_nl output)
  else if (max_score results =? 0)%Z then ZeroDivisionError
  else
    let output :=
      output
      ++ [NEWLINE :: lit "Overall Score: " ++ str_of_Z (overall_score results)
            ++ lit "/" ++ str_of_Z (max_score results) ++ lit " ("
            ++ percent_0f ff (overall_score results) (max_score results)
            ++ lit "%)";
          NEWLINE :: lit "Question Results:"]
      ++ flat_map question_lines (questions results)
      ++ match errors results with
         | [] => []
         | _ :: _ =>
             (NEWLINE :: lit "Errors:")
             :: map (fun error => lit "  " ++ error) (errors results)
         end
      ++ [NEWLINE :: rule 60 ++ [NEWLINE]] in
    Value (join_nl output).

(** ** The runner ([run_autograder.py])

    The working directory with its path arithmetic and the existence test are
    taken from outside.  The runner's effects are the lines it prints and the
    chunks it writes to [autograder_results.txt]; writing is assumed to
    succeed. *)

Record Shell : Type := {
  cwd_join : str -> Path;
  path_exists : Path -> bool
}.

Record Run : Type := {
  printed : list str;
  all_results : list NotebookResult;
  total_score : Z;
  max_total_score : Z
}.

Definition print (st : Run) (line : str) : Run :=
  {| printed := printed st ++ [line];
     all_results := all_results st;
     total_score := total_score st;
     max_total_score := max_total_score st |}.

Definition collect (st : Run) (results : NotebookResult) : Run :=
  {| printed := printed st;
     all_results := all_results st ++ [results];
     total_score := total_score st + overall_score results;
     max_total_score := max_total_score st + max_score results |}.

Definition WARNING_SIGN : str := [9888; 65039]%N.

(** The loop over the configured notebooks; [true] tells that the report of
    a notebook raised [ZeroDivisionError]. *)
Fixpoint grade_notebooks (ff : FloatFormat) (sh : Shell) (w : World)
    (m : ConfigModule) (notebook_paths : list str) (st : Run) : Run * bool :=
  match notebook_paths with
  | [] => (st, false)
  | notebook_path :: rest =>
      let notebook_full_path := cwd_join sh notebook_path in
      if negb (path_exists sh notebook_full_path) then
        grade_notebooks ff sh w m rest
          (print st (WARNING_SIGN ++ lit "  Warning: " ++ notebook_path
                     ++ lit " not found, skipping..."))
      else
        let st := print st (lit "Testing: " ++ notebook_path) in
        let config := get_notebook_config m notebook_path in
        let results := test_notebook w notebook_full_path config in
        match format_results_for_display ff results with
        | ZeroDivisionError => (st, true)
        | Value text =>
            grade_notebooks ff sh w m rest (collect (print st text) results)
        end
  end.

(** The chunks written for the graded notebooks, up to the report that
    raised if one did ([true]). *)
Fixpoint write_results (ff : FloatFormat) (results_list : list NotebookResult)
  : list str * bool :=
  match results_list with
  | [] => ([], false)
  | results :: rest =>
      match format_results_for_display ff results with
      | ZeroDivisionError => ([], true)
      | Value text =>
          let (chunks, raised) := write_results ff rest in
          (text :: [NEWLINE] :: chunks, raised)
      end
  end.

(** What a run leaves behind: the lines printed, the chunks written to the
    results file if it was opened, and the exit status or the exception. *)
Record RunOutcome : Type := {
  stdout : list str;
  results_file : option (list str);
  status : arith Z
}.

Definition run_autograder (ff : FloatFormat) (sh : Shell) (w : World)
    (m : ConfigModule) : RunOutcome :=
  let st :=
    {| printed :=
         [NEWLINE :: rule 70;
          lit "Running Autograder: " ++ ASSIGNMENT_NAME m;
          rule 70 ++ [NEWLINE]];
       all_results := [];
       total_score := 0;
       max_total_score := 0 |} in
  match grade_notebooks ff sh w m (get_all_configured_notebooks m) st with
  | (st, true) =>
      {| stdout := printed st; results_file := None; status := ZeroDivisionError |}
  | (st, false) =>
      let st := print st (NEWLINE :: rule 70) in
      let st := print st (lit "AUTOGRADER SUMMARY") in
      let st := print st (rule 70) in
      if (max_total_score st =? 0)%Z then
        {| stdout := printed st; results_file := None; status := ZeroDivisionError |}
      else
        let score_text :=
          str_of_Z (total_score st) ++ lit "/" ++ str_of_Z (max_total_score st)
          ++ lit " (" ++ percent_1f ff (total_score st) (max_total_score st)
          ++ lit "%)" in
        let st := print st (NEWLINE :: lit "Automated Checks Score: " ++ score_text) in
        let st := print st (NEWLINE :: lit "This covers:") in
        let st := print st (lit "  - Completeness: All questions attempted") in
        let st := print st (lit "  - Correctness: Automated answer checking") in
        let st := print st (NEWLINE :: lit "Manual grading still required for:") in
        let st := print st (lit "  - Essay questions (detailed understanding)") in
        let st := print st (lit "  - Code quality assessment") in
        let st := print st (lit "  - Iterative development (commit history)") in
        let st := print st (NEWLINE :: rule 70 ++ [NEWLINE]) in
        let header :=
          [lit "Autograder Results: " ++ ASSIGNMENT_NAME m ++ [NEWLINE];
           rule 70 ++ [NEWLINE; NEWLINE];
           lit "Overall Automated Score: " ++ score_text ++ [NEWLINE; NEWLINE]] in
        match write_results ff (all_results st) with
        | (chunks, true) =>
            {| stdout := printed st;
               results_file := Some (header ++ chunks);
               status := ZeroDivisionError |}
        | (chunks, false) =>
            let st :=
              print st (CHECK_MARK :: lit " Results saved to autograder_results.txt") in
            {| stdout := printed st;
               results_file := Some (header ++ chunks);
               status := Value (match all_results st with
                                | [] => 1%Z
                                | _ :: _ => 0%Z
                                end) |}
        end
  end.

(** ** Conditions on a configuration *)

(** The cell indices are not negative and every code question lists at least
    one expected output. *)
Definition safe_question (question_config : QuestionConfig) : bool :=
  (0 <=? cfg_cell_index question_config)%Z
  && (negb (str_eqb (cfg_type question_config) (lit "code"))
      || match expected_outputs_of question_config with
         | [] => false
         | _ :: _ => true
         end).

Definition safe_questions (qs : dict QuestionConfig) : Prop :=
  Forall (fun kv => safe_question (snd kv) = true) qs.

(** A line that the lint skips: blank, or a comment. *)
Definition skipped_line (line : str) : bool :=
  match strip line with
  | [] => true
  | c :: _ => N.eqb c 35%N
  end.

(** The text that the code compares: lowercased, trimmed, collapsed. *)
Definition normalized (s : str) : str := re_sub_ws (strip (lower s)).

Definition is_error_output (o : Output) : bool :=
  match o with
  | OError _ _ => true
  | _ => false
  end.

Definition sum_max_scores (results_list : list NotebookResult) : Z :=
  fold_right (fun r acc => (max_score r + acc)%Z) 0%Z results_list.

(** The report of a result does not raise. *)
Definition displayable (ff : FloatFormat) (results : NotebookResult) : Prop :=
  exists text, format_results_for_display ff results = Value text.

(** The state of the runner's loop: every collected result has been
    reported, and the running maximum is the sum of their maxima. *)
Definition totals_consistent (ff : FloatFormat) (st : Run) : Prop :=
  Forall (displayable ff) (all_results st)
  /\ max_total_score st = sum_max_scores (all_results st).

(** ** More sample inputs *)

Module Samples.

(** A float format: the percentage rounded down. *)
Definition floor_percent : FloatFormat :=
  {| percent_0f := fun a b => str_of_Z (a * 100 / b);
     percent_1f := fun a b => str_of_Z (a * 100 / b) ++ lit ".0" |}.

(** The last component of a relative path and the directory before it. *)
Definition under_repo (rel : str) : Path :=
  let parts := split_char 47%N rel in
  {| parent := lit "/repo" ++ concat (map (fun d => 47%N :: d) (removelast parts));
     name := last parts [] |}.

Definition shell_all_present : Shell :=
  {| cwd_join := under_repo; path_exists := fun _ => true |}.

Definition shell_nothing_present : Shell :=
  {| cwd_join := under_repo; path_exists := fun _ => false |}.

(** The working directory cannot be entered. *)
Definition world_no_directory : World :=
  {| nbformat_read := fun _ => Raise (OSError (lit "No such file or directory"));
     preprocess := fun _ nb _ => Ok nb;
     subprocess_run :=
       fun _ _ => Raise (OSError (lit "No such file or directory")) |}.

Definition shouting_cell : Cell :=
  {| cell_type := markdown;
     source := lit "  < YOUR Answer > and some more words to be long enough  ";
     outputs := [] |}.

Definition shouting_nb : NotebookNode := {| cells := [shouting_cell] |}.

(** Essay questions whose cell index counts from the end. *)
Definition q_essay_from_end : QuestionConfig :=
  {| cfg_type := lit "essay";
     cfg_cell_index := -1;
     cfg_expected_outputs := None;
     cfg_points := Some 2%Z;
     cfg_description := lit "Explain operator overloading" |}.

Definition q_essay_below : QuestionConfig :=
  {| cfg_type := lit "essay";
     cfg_cell_index := -4;
     cfg_expected_outputs := None;
     cfg_points := Some 2%Z;
     cfg_description := lit "Explain operator overloading" |}.

Definition config_negative : TestConfig :=
  {| cfg_questions :=
       Some [(lit "Q1", q_essay_below); (lit "Q2", Examples.q_essay)] |}.

End Samples.

(** * Properties of the string primitives *)

Section StringFacts.

Lemma str_eqb_eq a b : str_eqb a b = true <-> a = b.
Proof.
  revert b; induction a as [|x a IH]; intros [|y b]; simpl; split; try easy.
  - rewrite andb_true_iff, N.eqb_eq, IH. now intros [-> ->].
  - intros [= -> ->]. rewrite N.eqb_refl. simpl. now apply IH.
Qed.

Lemma str_eqb_refl a : str_eqb a a = true.
Proof. now apply str_eqb_eq. Qed.

(** *** Trailing whitespace, by structural recursion *)

Lemma rstrip_snoc s c :
  rstrip (s ++ [c]) = if isspace c then rstrip s else s ++ [c].
Proof.
  unfold rstrip. rewrite rev_app_distr. simpl.
  destruct (isspace c); [reflexivity|].
  simpl. now rewrite rev_involutive.
Qed.

Lemma rstrip_cons c t :
  rstrip (c :: t) =
  match rstrip t with
  | [] => if isspace c then [] else [c]
  | r => c :: r
  end.
Proof.
  induction t as [|d t IH] using rev_ind.
  - unfold rstrip. simpl. now destruct (isspace c).
  - rewrite app_comm_cons, !rstrip_snoc.
    destruct (isspace d); [exact IH|].
    now destruct t.
Qed.

Lemma rstrip_cons_word c t :
  isspace c = false -> rstrip (c :: t) = c :: rstrip t.
Proof. intros H. rewrite rstrip_cons, H. now destruct (rstrip t). Qed.

Lemma rstrip_cons_space c t :
  isspace c = true ->
  rstrip (c :: t) = match rstrip t with [] => [] | r => c :: r end.
Proof. intros H. now rewrite rstrip_cons, H. Qed.

Lemma rstrip_nil_iff s : rstrip s = [] <-> forallb isspace s = true.
Proof.
  induction s as [|c t IH]; [easy|].
  rewrite rstrip_cons. simpl. rewrite andb_true_iff, <- IH.
  destruct (rstrip t), (isspace c); split; try easy; now intros [? ?].
Qed.

Lemma words_nil_iff s : words s = [] <-> forallb isspace s = true.
Proof.
  induction s as [|c t IH]; [easy|].
  simpl. destruct (isspace c); simpl; [exact IH|].
  split; [|discriminate].
  destruct (starts_word t); [destruct (words t)|]; discriminate.
Qed.

Lemma canonical_nil_iff s : canonical s = [] <-> forallb isspace s = true.
Proof.
  rewrite <- words_nil_iff. unfold canonical.
  induction s as [|c t IH]; [easy|].
  simpl. destruct (isspace c); [exact IH|].
  destruct (starts_word t); [destruct (words t) as [|w [|w' ws]]|
                             destruct (words t)]; easy.
Qed.

Lemma starts_word_words t : starts_word t = true -> words t <> [].
Proof.
  destruct t as [|d t]; simpl; [discriminate|].
  intros H. apply negb_true_iff in H. rewrite H.
  destruct (starts_word t); [destruct (words t)|]; discriminate.
Qed.

(** *** The canonical form, one character at a time *)

Lemma canonical_cons_space c t : isspace c = true -> canonical (c :: t) = canonical t.
Proof. intros H. unfold canonical. simpl. now rewrite H. Qed.

Lemma canonical_cons_word c t :
  isspace c = false -> canonical (c :: t) = c :: canonical_rest t.
Proof.
  intros H. unfold canonical_rest, canonical. simpl. rewrite H.
  destruct (starts_word t) eqn:Et.
  - pose proof (starts_word_words t Et) as Hw.
    destruct (words t) as [|w [|w' ws]]; [contradiction| |]; reflexivity.
  - destruct (forallb isspace t) eqn:Eb.
    + apply words_nil_iff in Eb. now rewrite Eb.
    + destruct (words t) eqn:Ew; [|reflexivity].
      assert (forallb isspace t = true) by now apply words_nil_iff.
      congruence.
Qed.

Lemma sub_ws_from_word b s :
  starts_word s = true -> sub_ws_from b s = sub_ws_from true s.
Proof.
  destruct s as [|c t]; simpl; [discriminate|].
  intros H. apply negb_true_iff in H. now rewrite H.
Qed.

Lemma lstrip_sub_ws_skip s : lstrip (sub_ws_from true s) = sub_ws_from true s.
Proof.
  induction s as [|c t IH]; simpl; [reflexivity|].
  destruct (isspace c) eqn:E; [exact IH|]. simpl. now rewrite E.
Qed.

Lemma lstrip_re_sub_ws s : lstrip (re_sub_ws s) = sub_ws_from true s.
Proof.
  unfold re_sub_ws. destruct s as [|c t]; simpl; [reflexivity|].
  destruct (isspace c) eqn:E; simpl.
  - apply lstrip_sub_ws_skip.
  - now rewrite E.
Qed.

Lemma words_lstrip s : words (lstrip s) = words s.
Proof.
  induction s as [|c t IH]; simpl; [reflexivity|].
  destruct (isspace c) eqn:E; [exact IH|]. simpl. now rewrite E.
Qed.

(** Collapsing then trimming the tail gives the canonical form. *)
Lemma rstrip_sub_ws_skip s : rstrip (sub_ws_from true s) = canonical s.
Proof.
  induction s as [|c t IH]; [reflexivity|].
  simpl. destruct (isspace c) eqn:E.
  - now rewrite canonical_cons_space.
  - rewrite canonical_cons_word, rstrip_cons_word by (exact E || reflexivity).
    f_equal. unfold canonical_rest.
    destruct t as [|d t']; [reflexivity|].
    simpl in *. destruct (isspace d) eqn:Ed; simpl.
    + rewrite rstrip_cons_space by reflexivity. rewrite IH.
      destruct (forallb isspace t') eqn:Eb.
      * assert (canonical (d :: t') = []) as ->; [|reflexivity].
        apply canonical_nil_iff. simpl. now rewrite Ed.
      * destruct (canonical (d :: t')) eqn:Ec; [|reflexivity].
        apply canonical_nil_iff in Ec. simpl in Ec. rewrite Ed in Ec.
        simpl in Ec. congruence.
    + exact IH.
Qed.

(** Trimming the tail then collapsing gives the canonical form. *)
Lemma sub_ws_skip_rstrip s : sub_ws_from true (rstrip s) = canonical s.
Proof.
  induction s as [|c t IH]; [reflexivity|].
  destruct (isspace c) eqn:E.
  - rewrite canonical_cons_space, rstrip_cons_space by exact E.
    rewrite <- IH. destruct (rstrip t); [reflexivity|].
    simpl. now rewrite E.
  - rewrite canonical_cons_word, rstrip_cons_word by exact E.
    simpl. rewrite E. f_equal. unfold canonical_rest.
    destruct t as [|d t']; [reflexivity|].
    simpl starts_word. destruct (isspace d) eqn:Ed; simpl negb; cbv iota.
    + rewrite <- IH.
      destruct (forallb isspace (d :: t')) eqn:Eb.
      * apply rstrip_nil_iff in Eb. now rewrite Eb.
      * destruct (rstrip (d :: t')) eqn:Er.
        -- apply rstrip_nil_iff in Er. congruence.
        -- rewrite rstrip_cons_space in Er by exact Ed.
           destruct (rstrip t'); [discriminate|].
           injection Er as <- <-. simpl. now rewrite Ed.
    + rewrite <- IH. apply sub_ws_from_word.
      rewrite rstrip_cons_word by exact Ed. simpl. now rewrite Ed.
Qed.

Lemma strip_starts s : strip s = [] \/ starts_word (strip s) = true.
Proof.
  unfold strip. induction s as [|c t IH]; [now left|].
  simpl. destruct (isspace c) eqn:E; [exact IH|].
  right. rewrite rstrip_cons_word by exact E. simpl. now rewrite E.
Qed.

Lemma re_sub_ws_strip s : re_sub_ws (strip s) = canonical s.
Proof.
  unfold re_sub_ws.
  assert (H : sub_ws_from false (strip s) = sub_ws_from true (strip s)).
  { destruct (strip_starts s) as [-> | H]; [reflexivity|].
    now apply sub_ws_from_word. }
  rewrite H. unfold strip. rewrite sub_ws_skip_rstrip.
  unfold canonical. now rewrite words_lstrip.
Qed.

Lemma strip_re_sub_ws s : strip (re_sub_ws s) = canonical s.
Proof. unfold strip. rewrite lstrip_re_sub_ws. apply rstrip_sub_ws_skip. Qed.

Lemma starts_word_canonical t : starts_word t = true -> starts_word (canonical t) = true.
Proof.
  destruct t as [|d t]; [discriminate|].
  simpl. intros H. apply negb_true_iff in H.
  rewrite canonical_cons_word by exact H. simpl. now rewrite H.
Qed.

(** The canonical form keeps the words. *)
Lemma words_canonical s : words (canonical s) = words s.
Proof.
  induction s as [|c t IH]; [reflexivity|].
  destruct (isspace c) eqn:E.
  - rewrite canonical_cons_space by exact E. simpl. now rewrite E.
  - rewrite canonical_cons_word by exact E. simpl. rewrite E.
    unfold canonical_rest.
    destruct (starts_word t) eqn:Et.
    + now rewrite starts_word_canonical, IH.
    + destruct (forallb isspace t) eqn:Eb.
      * apply words_nil_iff in Eb. now rewrite Eb.
      * simpl. now rewrite IH.
Qed.

Lemma canonical_inj a b : canonical a = canonical b <-> words a = words b.
Proof.
  split; intros H.
  - now rewrite <- (words_canonical a), <- (words_canonical b), H.
  - unfold canonical. now rewrite H.
Qed.

End StringFacts.

(** * Lowercasing *)

Section Lowercase.

Lemma isspace_in c : isspace c = true -> In c whitespace_chars.
Proof.
  unfold isspace. intros H.
  assert (R : (9 <= c <= 13 \/ 28 <= c <= 32 \/ c = 133 \/ c = 160 \/ c = 5760
               \/ 8192 <= c <= 8202 \/ c = 8232 \/ c = 8233 \/ c = 8239
               \/ c = 8287 \/ c = 12288)%N).
  { revert H.
    repeat match goal with
      | |- context [N.leb ?a ?b] => destruct (N.leb_spec a b); try lia
      | |- context [N.eqb ?a ?b] => destruct (N.eqb_spec a b); try lia
      end; simpl; discriminate. }
  unfold whitespace_chars. simpl. lia.
Qed.

(** Whitespace is neither cased nor case-ignorable and has no lowercase. *)
Lemma whitespace_plain c :
  isspace c = true ->
  N.eqb c SIGMA = false
  /\ case_ignorable c = false
  /\ cased c = false
  /\ lower_full c = [c].
Proof.
  intros H. apply isspace_in in H. unfold whitespace_chars in H. simpl in H.
  repeat (destruct H as [<-|H]; [vm_compute; repeat split; reflexivity|]).
  contradiction.
Qed.

Lemma case_ignorable_nonspace c : case_ignorable c = true -> isspace c = false.
Proof.
  intros H. destruct (isspace c) eqn:E; [|reflexivity].
  apply whitespace_plain in E as (_ & E & _). congruence.
Qed.

Lemma lookup_lower_cases ranges c :
  lookup_lower ranges c = c
  \/ In (c, lookup_lower ranges c) (flat_map expand_lower_range ranges).
Proof.
  induction ranges as [|[[[lo hi] step] target] rest IH]; [now left|].
  change (lookup_lower ((lo, hi, step, target) :: rest) c)
    with (if in_lower_range (lo, hi, step, target) c
          then (target + (c - lo))%N else lookup_lower rest c).
  cbn [flat_map]. unfold in_lower_range.
  destruct ((lo <=? c)%N && (c <=? hi)%N && ((c - lo) mod step =? 0)%N) eqn:E.
  - right. apply in_or_app. left. unfold expand_lower_range.
    apply andb_true_iff in E as [E Hm]. apply andb_true_iff in E as [Hlo Hhi].
    apply N.leb_le in Hlo, Hhi. apply N.eqb_eq in Hm.
    apply N.Div0.div_exact in Hm.
    apply in_map_iff. exists (N.to_nat ((c - lo) / step)). split.
    + rewrite N2Nat.id, (N.mul_comm _ step), <- Hm. f_equal; lia.
    + assert (Hk : ((c - lo) / step <= (hi - lo) / step)%N)
        by (apply N.Div0.div_le_mono; lia).
      clear Hm. revert Hk.
      generalize ((c - lo) / step)%N, ((hi - lo) / step)%N. intros k k' Hk.
      apply in_seq. lia.
  - destruct IH as [IH|IH]; [now left|]. right. apply in_or_app. now right.
Qed.

Lemma lower_pairs_checked :
  forallb (fun p => negb (isspace (snd p)) && fixed_char (snd p)) lower_pairs = true.
Proof. vm_compute. reflexivity. Qed.

Lemma lower_full_out c :
  isspace c = false -> N.eqb c SIGMA = false ->
  forallb word_char (lower_full c) = true.
Proof.
  intros Hs Hsig. unfold lower_full.
  destruct (N.eqb_spec c DOTTED_CAPITAL_I) as [->|Hi]; [vm_compute; reflexivity|].
  simpl. rewrite andb_true_r.
  destruct (lookup_lower_cases lower_ranges c) as [Heq|Hin].
  - rewrite Heq. unfold word_char, fixed_char, lower_full.
    rewrite Hs, Hsig. apply N.eqb_neq in Hi. rewrite Hi, Heq. simpl.
    now rewrite N.eqb_refl.
  - pose proof lower_pairs_checked as H. rewrite forallb_forall in H.
    apply (H _ Hin).
Qed.

Lemma lower_at_out st c t :
  isspace c = false ->
  forallb word_char (lower_at st c t) = true /\ lower_at st c t <> [].
Proof.
  intros Hs. unfold lower_at.
  destruct (N.eqb c SIGMA) eqn:E.
  - split; [|discriminate].
    destruct (st && negb (followed_by_cased t)); vm_compute; reflexivity.
  - split; [now apply lower_full_out|].
    unfold lower_full. destruct (N.eqb c DOTTED_CAPITAL_I); discriminate.
Qed.

Lemma lower_at_ws st c t : isspace c = true -> lower_at st c t = [c].
Proof.
  intros H. apply whitespace_plain in H as (Hs & _ & _ & Hf).
  unfold lower_at. now rewrite Hs.
Qed.

Lemma lower_from_ws st c t :
  isspace c = true -> lower_from st (c :: t) = c :: lower_from false t.
Proof.
  intros H. simpl. rewrite (lower_at_ws _ _ _ H).
  apply whitespace_plain in H as (_ & Hi & Hc & _).
  unfold next_after_cased. now rewrite Hi, Hc.
Qed.

Lemma followed_by_cased_ws c t :
  isspace c = true -> followed_by_cased (c :: t) = false.
Proof.
  intros H. apply whitespace_plain in H as (_ & Hi & Hc & _).
  simpl. now rewrite Hi.
Qed.

Lemma word_char_nonspace e :
  forallb word_char e = true -> forallb (fun r => negb (isspace r)) e = true.
Proof.
  induction e as [|a e IH]; simpl; [reflexivity|].
  unfold word_char at 1. rewrite !andb_true_iff. intros [[Ha _] He].
  split; [exact Ha | now apply IH].
Qed.

(** *** A run of word characters in front of a text *)

Lemma lstrip_word x : starts_word x = true -> lstrip x = x.
Proof.
  destruct x as [|a x]; simpl; [discriminate|].
  intros H. apply negb_true_iff in H. now rewrite H.
Qed.

Lemma starts_word_app_word e x :
  e <> [] -> forallb (fun r => negb (isspace r)) e = true ->
  starts_word (e ++ x) = true.
Proof.
  destruct e as [|a e]; [easy|]. simpl. intros _ H.
  now apply andb_true_iff in H as [-> _].
Qed.

Lemma rstrip_app_word e x :
  forallb (fun r => negb (isspace r)) e = true ->
  rstrip (e ++ x) = e ++ rstrip x.
Proof.
  induction e as [|a e IH]; simpl; [reflexivity|].
  intros H. apply andb_true_iff in H as [Ha He]. apply negb_true_iff in Ha.
  rewrite rstrip_cons_word by exact Ha. now rewrite IH.
Qed.

Lemma sub_ws_from_app_word b e x :
  e <> [] -> forallb (fun r => negb (isspace r)) e = true ->
  sub_ws_from b (e ++ x) = e ++ sub_ws_from false x.
Proof.
  revert b. induction e as [|a e IH]; intros b; [easy|].
  simpl. intros _ H. apply andb_true_iff in H as [Ha He].
  apply negb_true_iff in Ha. rewrite Ha. f_equal.
  destruct e as [|a' e']; [reflexivity|]. now apply IH.
Qed.

Lemma words_app_word e x :
  e <> [] -> forallb (fun r => negb (isspace r)) e = true ->
  words (e ++ x) =
  if starts_word x
  then match words x with
       | w :: ws => (e ++ w) :: ws
       | [] => [e]
       end
  else e :: words x.
Proof.
  induction e as [|a e IH]; [easy|].
  intros _ H. simpl in H. apply andb_true_iff in H as [Ha He].
  apply negb_true_iff in Ha.
  destruct e as [|a' e'].
  - simpl. rewrite Ha. destruct (starts_word x); [|reflexivity].
    now destruct (words x).
  - change ((a :: a' :: e') ++ x) with (a :: ((a' :: e') ++ x)).
    cbn [words]. rewrite Ha.
    rewrite (starts_word_app_word (a' :: e') x) by (easy || exact He).
    rewrite IH by (easy || exact He).
    destruct (starts_word x); [|reflexivity].
    now destruct (words x).
Qed.

(** *** Lowercasing and trimming *)

Lemma lower_from_nil_iff st s : lower_from st s = [] <-> s = [].
Proof.
  split; [|now intros ->].
  destruct s as [|c t]; [reflexivity|]. simpl.
  destruct (isspace c) eqn:E.
  - now rewrite (lower_at_ws _ _ _ E).
  - destruct (lower_at_out st c t E) as [_ Hne].
    destruct (lower_at st c t); [contradiction | discriminate].
Qed.

Lemma starts_word_lower_from st s :
  starts_word (lower_from st s) = starts_word s.
Proof.
  destruct s as [|c t]; [reflexivity|].
  destruct (isspace c) eqn:E.
  - rewrite lower_from_ws by exact E. simpl. now rewrite E.
  - simpl. rewrite E. destruct (lower_at_out st c t E) as [Hw Hne].
    apply starts_word_app_word; [exact Hne | now apply word_char_nonspace].
Qed.

Lemma lstrip_lower s : lstrip (lower s) = lower (lstrip s).
Proof.
  unfold lower. induction s as [|c t IH]; [reflexivity|].
  destruct (isspace c) eqn:E.
  - rewrite lower_from_ws by exact E. simpl. now rewrite E.
  - cbn [lstrip]. rewrite E. apply lstrip_word.
    rewrite starts_word_lower_from. simpl. now rewrite E.
Qed.

Lemma followed_by_cased_rstrip t :
  followed_by_cased (rstrip t) = followed_by_cased t.
Proof.
  induction t as [|d t IH]; [reflexivity|].
  destruct (isspace d) eqn:E.
  - rewrite rstrip_cons_space, followed_by_cased_ws by exact E.
    destruct (rstrip t); [reflexivity|]. now apply followed_by_cased_ws.
  - rewrite rstrip_cons_word by exact E. simpl. now rewrite IH.
Qed.

Lemma rstrip_lower_from st s : rstrip (lower_from st s) = lower_from st (rstrip s).
Proof.
  revert st. induction s as [|c t IH]; intros st; [reflexivity|].
  destruct (isspace c) eqn:E.
  - rewrite lower_from_ws, !rstrip_cons_space by exact E. rewrite IH.
    destruct (rstrip t) as [|d r] eqn:Er; [reflexivity|].
    destruct (lower_from false (d :: r)) eqn:El.
    + apply lower_from_nil_iff in El. discriminate.
    + rewrite <- El. now rewrite (lower_from_ws st c (d :: r) E).
  - rewrite rstrip_cons_word by exact E. simpl.
    destruct (lower_at_out st c t E) as [Hw _].
    rewrite rstrip_app_word by now apply word_char_nonspace.
    rewrite IH. f_equal.
    unfold lower_at. now rewrite followed_by_cased_rstrip.
Qed.

Lemma rstrip_lower s : rstrip (lower s) = lower (rstrip s).
Proof. apply rstrip_lower_from. Qed.

Lemma strip_lower s : strip (lower s) = lower (strip s).
Proof. unfold strip. now rewrite lstrip_lower, rstrip_lower. Qed.

(** *** Lowercasing and collapsing *)

Lemma followed_by_cased_sub_ws t :
  followed_by_cased (sub_ws_from false t) = followed_by_cased t.
Proof.
  induction t as [|d t IH]; [reflexivity|].
  simpl. destruct (isspace d) eqn:E.
  - apply whitespace_plain in E as (_ & Hi & Hc & _). rewrite Hi, Hc.
    reflexivity.
  - simpl. now rewrite IH.
Qed.

Lemma sub_ws_from_lower_from b st s :
  (b = true -> st = false) ->
  sub_ws_from b (lower_from st s) = lower_from st (sub_ws_from b s).
Proof.
  revert b st. induction s as [|c t IH]; intros b st Hb; [reflexivity|].
  destruct (isspace c) eqn:E.
  - rewrite lower_from_ws by exact E. simpl. rewrite E.
    rewrite (IH true false) by reflexivity.
    destruct b.
    + now rewrite Hb.
    + now rewrite (lower_from_ws st SPACE _ eq_refl).
  - simpl. rewrite E. destruct (lower_at_out st c t E) as [Hw Hne].
    rewrite sub_ws_from_app_word
      by (exact Hne || now apply word_char_nonspace).
    rewrite (IH false) by discriminate. simpl. f_equal.
    unfold lower_at. now rewrite followed_by_cased_sub_ws.
Qed.

Lemma sub_ws_from_lower b s : sub_ws_from b (lower s) = lower (sub_ws_from b s).
Proof. apply sub_ws_from_lower_from. reflexivity. Qed.

(** *** Lowercasing and splitting into words *)

Lemma starts_word_lower s : starts_word (lower s) = starts_word s.
Proof. apply starts_word_lower_from. Qed.

Lemma followed_by_cased_first_word t w ws :
  starts_word t = true -> words t = w :: ws ->
  followed_by_cased w = followed_by_cased t.
Proof.
  revert w ws. induction t as [|d t IH]; intros w ws; [discriminate|].
  simpl. intros Hd. apply negb_true_iff in Hd. rewrite Hd.
  destruct (starts_word t) eqn:Et.
  - destruct (words t) as [|w' ws'] eqn:Ew.
    + now apply starts_word_words in Et.
    + intros [= <- <-]. simpl. now rewrite (IH w' ws' eq_refl eq_refl).
  - intros [= <- <-]. simpl.
    destruct (case_ignorable d); [|reflexivity].
    destruct t as [|d' t']; [reflexivity|].
    simpl in Et. apply negb_false_iff in Et.
    symmetry. now apply followed_by_cased_ws.
Qed.

Lemma words_lower_from st s :
  words (lower_from st s) =
  match words s with
  | [] => []
  | w :: ws =>
      if starts_word s then lower_from st w :: map lower ws
      else map lower (w :: ws)
  end.
Proof.
  revert st. induction s as [|c t IH]; intros st; [reflexivity|].
  destruct (isspace c) eqn:E.
  - rewrite lower_from_ws by exact E. simpl. rewrite E. simpl.
    rewrite IH. destruct (words t) as [|w ws]; [reflexivity|].
    now destruct (starts_word t).
  - cbn [lower_from]. destruct (lower_at_out st c t E) as [Hw Hne].
    rewrite words_app_word by (exact Hne || now apply word_char_nonspace).
    rewrite starts_word_lower_from, IH.
    simpl. rewrite E. simpl.
    destruct (starts_word t) eqn:Et.
    + destruct (words t) as [|w ws] eqn:Ew.
      * now apply starts_word_words in Et.
      * simpl. f_equal. f_equal. unfold lower_at.
        now rewrite (followed_by_cased_first_word t w ws Et Ew).
    + assert (Hf : followed_by_cased t = false).
      { destruct t as [|d t']; [reflexivity|].
        simpl in Et. apply negb_false_iff in Et.
        now apply followed_by_cased_ws. }
      assert (Hl : lower_at st c t = lower_at st c [])
        by (unfold lower_at; now rewrite Hf).
      cbn [lower_from]. rewrite Hl, app_nil_r.
      destruct (words t) as [|w ws]; reflexivity.
Qed.

Lemma words_lower s : words (lower s) = map lower (words s).
Proof.
  unfold lower at 1. rewrite words_lower_from.
  destruct (words s) as [|w ws]; [reflexivity|].
  now destruct (starts_word s).
Qed.

(** *** Lowercasing twice *)

Lemma lower_from_fixed st s : forallb fixed_char s = true -> lower_from st s = s.
Proof.
  revert st. induction s as [|c t IH]; intros st; [reflexivity|].
  simpl. intros H. apply andb_true_iff in H as [Hc Ht].
  unfold fixed_char in Hc. apply andb_true_iff in Hc as [Hs Hf].
  apply negb_true_iff in Hs. apply str_eqb_eq in Hf.
  unfold lower_at. rewrite Hs, Hf. simpl. now rewrite IH.
Qed.

Lemma lower_from_emits_fixed st s : forallb fixed_char (lower_from st s) = true.
Proof.
  revert st. induction s as [|c t IH]; intros st; [reflexivity|].
  simpl. rewrite forallb_app, IH, andb_true_r.
  destruct (isspace c) eqn:E.
  - rewrite (lower_at_ws _ _ _ E). simpl. rewrite andb_true_r.
    apply whitespace_plain in E as (Hs & _ & _ & Hf).
    unfold fixed_char. rewrite Hs, Hf. simpl. now rewrite N.eqb_refl.
  - destruct (lower_at_out st c t E) as [Hw _].
    revert Hw. generalize (lower_at st c t).
    induction l as [|a l IHl]; simpl; [reflexivity|].
    unfold word_char at 1. rewrite !andb_true_iff.
    intros [[_ Ha] Hl]. split; [exact Ha | now apply IHl].
Qed.

Lemma lower_idem s : lower (lower s) = lower s.
Proof. unfold lower at 1. apply lower_from_fixed, lower_from_emits_fixed. Qed.

Lemma lower_length_le st s : length s <= length (lower_from st s).
Proof.
  revert st. induction s as [|c t IH]; intros st; simpl; [lia|].
  rewrite length_app. specialize (IH (next_after_cased st c)).
  assert (1 <= length (lower_at st c t)); [|lia].
  destruct (isspace c) eqn:E.
  - now rewrite (lower_at_ws _ _ _ E).
  - destruct (lower_at_out st c t E) as [_ Hne].
    destruct (lower_at st c t); [contradiction | simpl; lia].
Qed.

(** *** Text without a capital sigma *)

Lemma lower_from_app st p x :
  exists out st', lower_from st (p ++ x) = out ++ lower_from st' x.
Proof.
  revert st. induction p as [|c p IH]; intros st.
  - now exists [], st.
  - simpl. destruct (IH (next_after_cased st c)) as [out [st' ->]].
    exists (lower_at st c (p ++ x) ++ out), st'. now rewrite app_assoc.
Qed.

Lemma lower_from_no_sigma st v x :
  ~ In SIGMA v ->
  exists st', lower_from st (v ++ x) = concat (map lower_full v) ++ lower_from st' x.
Proof.
  revert st. induction v as [|c v IH]; intros st Hv.
  - now exists st.
  - simpl. destruct (IH (next_after_cased st c)) as [st' ->].
    { intros H. apply Hv. now right. }
    exists st'. rewrite <- app_assoc. f_equal.
    unfold lower_at. destruct (N.eqb_spec c SIGMA) as [->|_]; [|reflexivity].
    contradiction Hv. now left.
Qed.

Lemma sigma_shows st s :
  In SIGMA s -> In FINAL_SIGMA (lower_from st s) \/ In SMALL_SIGMA (lower_from st s).
Proof.
  revert st. induction s as [|c t IH]; intros st; [easy|].
  simpl. intros [->|H].
  - unfold lower_at. rewrite N.eqb_refl.
    destruct (st && negb (followed_by_cased t)); simpl; auto.
  - destruct (IH (next_after_cased st c) H) as [H'|H'];
      [left | right]; apply in_or_app; now right.
Qed.

Lemma occurs_in_lower sub s :
  ~ In SIGMA sub -> occurs_in sub s -> occurs_in (lower sub) (lower s).
Proof.
  intros Hsub [p [q ->]]. unfold lower.
  destruct (lower_from_app false p (sub ++ q)) as [out [st ->]].
  destruct (lower_from_no_sigma st sub q Hsub) as [st' ->].
  destruct (lower_from_no_sigma false sub [] Hsub) as [st'' H].
  rewrite app_nil_r in H. rewrite H. simpl. rewrite app_nil_r.
  now exists out, (lower_from st' q).
Qed.

Lemma normalize_spec_canonical s : normalize_spec s = canonical (lower s).
Proof.
  unfold normalize_spec, re_sub_ws.
  rewrite <- sub_ws_from_lower. apply strip_re_sub_ws.
Qed.

End Lowercase.

(** ** C2: the flexible matcher *)

(** C2. For all texts [actual] and [expected], the flexible matcher answers
    true exactly when collapsing whitespace runs, lowercasing and trimming
    both texts gives equal texts; equivalently, exactly when the two texts
    have the same whitespace-separated words up to letter case, so that
    texts differing only in whitespace runs and case match and texts
    differing in any other character do not. *)
Theorem check_output_matches_flexible (actual expected : str) :
  (check_output_matches actual expected true = true
   <-> normalize_spec actual = normalize_spec expected)
  /\ (check_output_matches actual expected true = true
      <-> same_words_up_to_case actual expected).
Proof.
  assert (H : check_output_matches actual expected true = true
              <-> canonical (lower actual) = canonical (lower expected)).
  { unfold check_output_matches. rewrite str_eqb_eq.
    now rewrite !re_sub_ws_strip. }
  split.
  - now rewrite H, !normalize_spec_canonical.
  - unfold same_words_up_to_case.
    now rewrite H, canonical_inj, !words_lower.
Qed.

(** * Substring search *)

Section Substrings.

Lemma startswith_iff s p : startswith s p = true <-> exists q, s = p ++ q.
Proof.
  revert s; induction p as [|x p IH]; intros s; simpl.
  - split; [intros _; now exists s | reflexivity].
  - destruct s as [|y s]; [split; [discriminate | now intros [q Hq]]|].
    rewrite andb_true_iff, N.eqb_eq, IH. split.
    + intros [-> [q ->]]. now exists q.
    + intros [q [= -> ->]]. split; [reflexivity | now exists q].
Qed.

Lemma str_in_iff sub s : str_in sub s = true <-> occurs_in sub s.
Proof.
  unfold occurs_in. induction s as [|c t IH].
  - simpl. rewrite orb_false_r, startswith_iff. split.
    + intros [q Hq]. now exists [], q.
    + intros [p [q Hpq]].
      destruct p; [now exists q|discriminate].
  - simpl. rewrite orb_true_iff, startswith_iff, IH. split.
    + intros [[q Hq] | [p [q Hpq]]].
      * now exists [], q.
      * exists (c :: p), q. now rewrite Hpq.
    + intros [[|d p] [q Hpq]].
      * left. now exists q.
      * right. injection Hpq as <- ->. now exists p, q.
Qed.

Lemma str_in_false_iff sub s : str_in sub s = false <-> ~ occurs_in sub s.
Proof.
  rewrite <- str_in_iff. destruct (str_in sub s); split; easy.
Qed.

End Substrings.

(** * Indexing *)

Section Indexing.

Context {A : Type}.

Lemma getitem_in_range (l : list A) (i : Z) :
  (0 <= i < Z.of_nat (length l))%Z ->
  exists x, nth_error l (Z.to_nat i) = Some x /\ getitem l i = Ok x.
Proof.
  intros H. unfold getitem.
  destruct (Z.ltb_spec i 0); [lia|].
  assert (E : ((0 <=? i) && (i <? Z.of_nat (length l)))%Z = true).
  { apply andb_true_iff. split; [apply Z.leb_le | apply Z.ltb_lt]; lia. }
  rewrite E.
  destruct (nth_error l (Z.to_nat i)) eqn:En; [now exists a|].
  apply nth_error_None in En. lia.
Qed.

Lemma getitem_below_range (l : list A) (i : Z) :
  (i < - Z.of_nat (length l))%Z ->
  getitem l i = Raise (IndexError (lit "list index out of range")).
Proof.
  intros H. unfold getitem.
  destruct (Z.ltb_spec i 0); [|lia].
  assert (E : ((0 <=? Z.of_nat (length l) + i)
               && (Z.of_nat (length l) + i <? Z.of_nat (length l)))%Z = false).
  { apply andb_false_iff. left. apply Z.leb_gt. lia. }
  now rewrite E.
Qed.

(** On an index that is not negative, [l[i]] is the element at position [i]. *)
Lemma getitem_nonneg (l : list A) (i : Z) (x : A) :
  (0 <= i)%Z ->
  getitem l i = Ok x <-> nth_error l (Z.to_nat i) = Some x.
Proof.
  intros H.
  destruct (Z.lt_ge_cases i (Z.of_nat (length l))) as [Hlt|Hge].
  - destruct (getitem_in_range l i) as [y [Hn Hg]]; [lia|].
    rewrite Hn, Hg. split; now intros [= ->].
  - assert (Hnone : nth_error l (Z.to_nat i) = None)
      by (apply nth_error_None; lia).
    rewrite Hnone. unfold getitem.
    destruct (Z.ltb_spec i 0); [lia|].
    destruct (Z.ltb_spec i (Z.of_nat (length l))); [lia|].
    rewrite andb_false_r. split; discriminate.
Qed.

End Indexing.

(** ** The cell extractor on indices that are not negative *)

Section Extractor.

Lemma get_cell_source_nonneg nb i :
  (0 <= i)%Z ->
  get_cell_source nb i =
  Ok (match nth_error (cells nb) (Z.to_nat i) with
      | Some cell => source cell
      | None => []
      end).
Proof.
  intros H. unfold get_cell_source.
  destruct (Z.leb_spec (Z.of_nat (length (cells nb))) i) as [Hi|Hi].
  - assert (nth_error (cells nb) (Z.to_nat i) = None) as ->; [|reflexivity].
    apply nth_error_None. lia.
  - destruct (getitem_in_range (cells nb) i) as [cell [-> ->]]; [lia|].
    reflexivity.
Qed.

Lemma get_cell_output_nonneg nb i :
  (0 <= i)%Z ->
  get_cell_output nb i =
  Ok (match nth_error (cells nb) (Z.to_nat i) with
      | Some cell =>
          match cell_type cell with
          | code => strip (join_empty (collect_output_text (outputs cell)))
          | _ => []
          end
      | None => []
      end).
Proof.
  intros H. unfold get_cell_output.
  destruct (Z.leb_spec (Z.of_nat (length (cells nb))) i) as [Hi|Hi].
  - assert (nth_error (cells nb) (Z.to_nat i) = None) as ->; [|reflexivity].
    apply nth_error_None. lia.
  - destruct (getitem_in_range (cells nb) i) as [cell [-> ->]]; [lia|].
    simpl. now destruct (cell_type cell).
Qed.

End Extractor.

(** * The grading loop *)

Section GradingLoop.

Lemma str_eqb_neq a b : a <> b -> str_eqb a b = false.
Proof.
  intros H. destruct (str_eqb a b) eqn:E; [|reflexivity].
  apply str_eqb_eq in E. contradiction.
Qed.

Lemma dict_set_fresh {V : Type} (d : dict V) k v :
  ~ In k (map fst d) -> dict_set d k v = d ++ [(k, v)].
Proof.
  induction d as [|[k0 v0] d IH]; simpl; intros H; [reflexivity|].
  rewrite str_eqb_neq by tauto. f_equal. apply IH. tauto.
Qed.

Lemma sum_scores_app a b : sum_scores (a ++ b) = (sum_scores a + sum_scores b)%Z.
Proof.
  unfold sum_scores. induction a as [|x a IH]; simpl; [reflexivity|].
  rewrite IH. lia.
Qed.

Lemma graded_keys nb qs k : In k (map fst (graded nb qs)) -> In k (map fst qs).
Proof.
  induction qs as [|[qid qc] qs IH]; simpl; [easy|].
  destruct (grade_question nb qc); simpl; [|easy].
  intros [H|H]; [now left | right; now apply IH].
Qed.

(** The loop, in closed form. *)
Lemma grade_questions_closed nb qs results :
  NoDup (map fst qs) ->
  (forall k, In k (map fst qs) -> ~ In k (map fst (questions results))) ->
  grade_questions nb qs results =
  ({| notebook := notebook results;
      executed := executed results;
      questions := questions results ++ graded nb qs;
      overall_score := overall_score results + sum_scores (graded nb qs);
      max_score := max_score results + reached_points nb qs;
      errors := errors results |},
   first_exception nb qs).
Proof.
  revert results. induction qs as [|[qid qc] qs IH]; intros results Hnd Hfresh.
  - simpl. rewrite app_nil_r, !Z.add_0_r. now destruct results.
  - simpl in *. inversion Hnd as [|? ? Hnotin Hnd']; subst.
    destruct (grade_question nb qc) as [qr|e].
    + rewrite IH; clear IH.
      * unfold record_question, add_max_score; simpl.
        rewrite dict_set_fresh by (apply Hfresh; now left).
        rewrite <- app_assoc. simpl.
        f_equal. f_equal; unfold sum_scores; simpl; lia.
      * exact Hnd'.
      * intros k Hk. unfold record_question, add_max_score; simpl.
        rewrite dict_set_fresh by (apply Hfresh; now left).
        rewrite map_app, in_app_iff. simpl.
        intros [H|[H|[]]].
        -- apply (Hfresh k); [now right | exact H].
        -- subst. contradiction.
    + unfold add_max_score; simpl.
      now rewrite app_nil_r, !Z.add_0_r.
Qed.

(** The result of a run whose notebook executed. *)
Lemma test_notebook_executed w notebook_path test_config nb :
  dict_wf (questions_of test_config) ->
  execute_notebook w notebook_path 600 = Ok nb ->
  test_notebook w notebook_path test_config =
  {| notebook := name notebook_path;
     executed := true;
     questions := graded nb (questions_of test_config);
     overall_score := sum_scores (graded nb (questions_of test_config));
     max_score := reached_points nb (questions_of test_config);
     errors := match first_exception nb (questions_of test_config) with
               | None => []
               | Some e => [exn_str e]
               end |}.
Proof.
  intros Hwf Hex. unfold test_notebook. rewrite Hex.
  rewrite grade_questions_closed by (exact Hwf || (intros k _ [])).
  simpl. now destruct (first_exception nb (questions_of test_config)).
Qed.

(** The result of a run whose notebook failed to execute. *)
Lemma test_notebook_failed w notebook_path test_config e :
  execute_notebook w notebook_path 600 = Raise e ->
  test_notebook w notebook_path test_config =
  {| notebook := name notebook_path;
     executed := false;
     questions := [];
     overall_score := 0;
     max_score := 0;
     errors := [exn_str e] |}.
Proof. intros Hex. unfold test_notebook. now rewrite Hex. Qed.

Lemma graded_in nb qs qid qr :
  In (qid, qr) (graded nb qs) ->
  exists qc, In (qid, qc) qs /\ grade_question nb qc = Ok qr.
Proof.
  induction qs as [|[k qc] qs IH]; simpl; [easy|].
  destruct (grade_question nb qc) as [r|e] eqn:E; simpl; [|easy].
  intros [[= -> ->]|H].
  - exists qc. split; [now left | exact E].
  - destruct (IH H) as [qc' [Hin Hg]]. exists qc'. split; [now right | exact Hg].
Qed.

Lemma graded_complete nb qs :
  first_exception nb qs = None ->
  map fst (graded nb qs) = map fst qs /\ reached_points nb qs = sum_points qs.
Proof.
  induction qs as [|[k qc] qs IH]; simpl; [easy|].
  destruct (grade_question nb qc) as [r|e]; [|discriminate].
  intros H. simpl. destruct (IH H) as [-> ->]. now split.
Qed.

(** One question: the result carries the configured points, and its score
    is all of them when passed and none when not. *)
Lemma grade_question_shape nb qc qr :
  grade_question nb qc = Ok qr ->
  q_max_score qr = points_of qc
  /\ ((passed qr = true /\ score qr = points_of qc)
      \/ (passed qr = false /\ score qr = 0%Z)).
Proof.
  unfold grade_question.
  destruct (str_eqb (cfg_type qc) (lit "code")).
  - destruct (get_cell_source nb (cfg_cell_index qc)) as [src|]; [|discriminate].
    simpl. destruct (check_code_contains_ellipsis src).
    + intros [= <-]. simpl. auto.
    + destruct (get_cell_output nb (cfg_cell_index qc)) as [out|]; [|discriminate].
      simpl. destruct (first_match out (expected_outputs_of qc)).
      * simpl. destruct (run_basic_linting src); intros [= <-]; simpl; auto.
      * destruct (getitem (expected_outputs_of qc) 0) as [first|]; [|discriminate].
        simpl. destruct (run_basic_linting src); intros [= <-]; simpl; auto.
  - destruct (str_eqb (cfg_type qc) (lit "essay")).
    + destruct (check_essay_answered nb (cfg_cell_index qc) 20) as [[ans txt]|];
        [|discriminate].
      simpl. destruct ans; intros [= <-]; simpl; auto.
    + intros [= <-]. simpl. auto.
Qed.

Lemma graded_bounded nb qs :
  points_positive qs ->
  (sum_scores (graded nb qs) <= reached_points nb qs)%Z
  /\ (0 <= reached_points nb qs)%Z.
Proof.
  unfold points_positive.
  induction qs as [|[k qc] qs IH]; simpl; intros Hpos; [lia|].
  inversion Hpos as [|? ? Hp Hrest]; subst. simpl in Hp.
  destruct (grade_question nb qc) as [r|e] eqn:E.
  - destruct (grade_question_shape _ _ _ E) as [_ Hs].
    specialize (IH Hrest). unfold sum_scores in *. simpl. lia.
  - unfold sum_scores. simpl. lia.
Qed.

End GradingLoop.

(** * Properties of a grading run *)

Section GradingRun.

Lemma dict_key_unique {V : Type} (d : dict V) k v v' :
  NoDup (map fst d) -> In (k, v) d -> In (k, v') d -> v = v'.
Proof.
  induction d as [|[k0 v0] d IH]; simpl; [easy|].
  intros Hnd. inversion Hnd as [|? ? Hnotin Hnd']; subst.
  intros [[= -> ->]|H1] [[= <-]|H2]; try reflexivity.
  - contradiction Hnotin. change k with (fst (k, v')). now apply in_map.
  - subst. contradiction Hnotin. change k0 with (fst (k0, v)). now apply in_map.
  - now apply IH.
Qed.

Lemma getitem_ok_lt {A : Type} (l : list A) i x :
  getitem l i = Ok x -> (i < Z.of_nat (length l))%Z.
Proof.
  unfold getitem. destruct (Z.ltb_spec i 0); [lia|].
  destruct (Z.leb_spec 0 i); [|lia]. simpl.
  destruct (Z.ltb_spec i (Z.of_nat (length l))); [lia|discriminate].
Qed.

End GradingRun.

(** ** C1: the score invariants of a notebook result *)

(** C1 (as stated, refuted). When the notebook fails to execute, [max_score]
    stays 0 although the configured questions carry 6 points. *)
Lemma max_score_of_failed_run :
  let r := test_notebook Examples.world_failing Examples.nb_path Examples.config in
  executed r = false
  /\ max_score r = 0%Z
  /\ sum_points (questions_of Examples.config) = 6%Z
  /\ max_score r <> sum_points (questions_of Examples.config).
Proof. vm_compute. repeat split; discriminate. Qed.

(** C1 (amended). For every grading run over questions with distinct ids and
    positive points: [overall_score] is the sum of the recorded scores, every
    recorded score lies between 0 and the question's points, [overall_score]
    never exceeds [max_score], [max_score] is the sum of the points of all
    configured questions when the notebook executed and no error was
    recorded, and a run whose notebook did not execute has [max_score] 0, no
    recorded question and an error. *)
Theorem test_notebook_score_invariants w notebook_path test_config :
  dict_wf (questions_of test_config) ->
  points_positive (questions_of test_config) ->
  let r := test_notebook w notebook_path test_config in
  overall_score r = sum_scores (questions r)
  /\ (forall qid qr,
        In (qid, qr) (questions r) ->
        exists qc, In (qid, qc) (questions_of test_config)
                   /\ (0 <= score qr <= points_of qc)%Z)
  /\ (overall_score r <= max_score r)%Z
  /\ (executed r = true -> errors r = [] ->
      max_score r = sum_points (questions_of test_config))
  /\ (executed r = false ->
      max_score r = 0%Z /\ questions r = [] /\ errors r <> []).
Proof.
  intros Hwf Hpos r. subst r.
  destruct (execute_notebook w notebook_path 600) as [nb|e] eqn:Hex.
  - rewrite (test_notebook_executed _ _ _ _ Hwf Hex). simpl.
    split; [reflexivity|]. split; [|split; [|split]].
    + intros qid qr Hin.
      destruct (graded_in _ _ _ _ Hin) as [qc [Hqc Hg]].
      exists qc. split; [exact Hqc|].
      destruct (grade_question_shape _ _ _ Hg) as [_ Hs].
      unfold points_positive in Hpos. rewrite Forall_forall in Hpos.
      specialize (Hpos _ Hqc). simpl in Hpos. lia.
    + now apply graded_bounded.
    + intros _ Herr.
      destruct (first_exception nb (questions_of test_config)) eqn:Hfe;
        [discriminate|].
      now apply graded_complete.
    + discriminate.
  - rewrite (test_notebook_failed _ _ _ _ Hex). simpl.
    repeat split; easy.
Qed.

Lemma test_notebook_score_invariants_witness :
  let r := test_notebook Examples.world_ok Examples.nb_path Examples.config in
  overall_score r = sum_scores (questions r)
  /\ (forall qid qr,
        In (qid, qr) (questions r) ->
        exists qc, In (qid, qc) (questions_of Examples.config)
                   /\ (0 <= score qr <= points_of qc)%Z)
  /\ (overall_score r <= max_score r)%Z
  /\ (executed r = true -> errors r = [] ->
      max_score r = sum_points (questions_of Examples.config))
  /\ (executed r = false ->
      max_score r = 0%Z /\ questions r = [] /\ errors r <> []).
Proof.
  apply (test_notebook_score_invariants
           Examples.world_ok Examples.nb_path Examples.config).
  - unfold dict_wf. simpl.
    repeat (constructor; [simpl; intuition discriminate|]). constructor.
  - unfold points_positive. simpl. repeat constructor.
Defined.

(** ** C10: a recorded score is all or nothing *)

(** C10. For every executed notebook, over questions with distinct ids and
    positive points, every recorded question result carries a score that is
    0 or the full configured points, and its [passed] flag is true exactly
    when the score is the full points; when no error was recorded, every
    configured question has a recorded result. *)
Theorem recorded_score_all_or_nothing w notebook_path test_config :
  dict_wf (questions_of test_config) ->
  points_positive (questions_of test_config) ->
  let r := test_notebook w notebook_path test_config in
  executed r = true ->
  (forall qid qr,
     In (qid, qr) (questions r) ->
     exists qc, In (qid, qc) (questions_of test_config)
                /\ q_max_score qr = points_of qc
                /\ (score qr = 0%Z \/ score qr = points_of qc)
                /\ (passed qr = true <-> score qr = points_of qc))
  /\ (errors r = [] ->
      map fst (questions r) = map fst (questions_of test_config)).
Proof.
  intros Hwf Hpos r. subst r.
  destruct (execute_notebook w notebook_path 600) as [nb|e] eqn:Hex.
  - rewrite (test_notebook_executed _ _ _ _ Hwf Hex). simpl. intros _. split.
    + intros qid qr Hin.
      destruct (graded_in _ _ _ _ Hin) as [qc [Hqc Hg]].
      exists qc. split; [exact Hqc|].
      destruct (grade_question_shape _ _ _ Hg) as [Hm Hs].
      unfold points_positive in Hpos. rewrite Forall_forall in Hpos.
      specialize (Hpos _ Hqc). simpl in Hpos.
      split; [exact Hm|].
      destruct Hs as [[Hp Hs]|[Hp Hs]]; rewrite Hp, Hs.
      * split; [now right | easy].
      * split; [now left|]. split; [discriminate | lia].
    + intros Herr.
      destruct (first_exception nb (questions_of test_config)) eqn:Hfe;
        [discriminate|].
      now apply graded_complete.
  - rewrite (test_notebook_failed _ _ _ _ Hex). simpl. discriminate.
Qed.

Lemma recorded_score_all_or_nothing_witness :
  let r := test_notebook Examples.world_ok Examples.nb_path Examples.config in
  (forall qid qr,
     In (qid, qr) (questions r) ->
     exists qc, In (qid, qc) (questions_of Examples.config)
                /\ q_max_score qr = points_of qc
                /\ (score qr = 0%Z \/ score qr = points_of qc)
                /\ (passed qr = true <-> score qr = points_of qc))
  /\ (errors r = [] ->
      map fst (questions r) = map fst (questions_of Examples.config)).
Proof.
  apply (recorded_score_all_or_nothing
           Examples.world_ok Examples.nb_path Examples.config).
  - unfold dict_wf. simpl.
    repeat (constructor; [simpl; intuition discriminate|]). constructor.
  - unfold points_positive. simpl. repeat constructor.
  - reflexivity.
Defined.

(** ** C7: a notebook that fails to execute *)

(** C7. Whenever the kernel raises while executing the notebook (a failing
    cell or the timeout), the result has [executed] false, no question, an
    overall score of 0 and exactly one error, which names the notebook. *)
Theorem execution_failure_scores_nothing w notebook_path test_config nb e :
  nbformat_read w notebook_path = Ok nb ->
  preprocess w 600 nb (parent notebook_path) = Raise e ->
  let r := test_notebook w notebook_path test_config in
  let message :=
    lit "Error executing " ++ name notebook_path ++ lit ": " ++ exn_str e in
  executed r = false
  /\ questions r = []
  /\ overall_score r = 0%Z
  /\ errors r = [message]
  /\ occurs_in (name notebook_path) message.
Proof.
  intros Hread Hrun r message.
  assert (Hex : execute_notebook w notebook_path 600 = Raise (Exception message)).
  { unfold execute_notebook. rewrite Hread. simpl. now rewrite Hrun. }
  subst r. rewrite (test_notebook_failed _ _ _ _ Hex). simpl.
  repeat split.
  exists (lit "Error executing "), (lit ": " ++ exn_str e). reflexivity.
Qed.

Lemma execution_failure_scores_nothing_witness :
  let r := test_notebook Examples.world_failing Examples.nb_path Examples.config in
  let message :=
    lit "Error executing 01_excercises_print.ipynb: Cell execution timed out" in
  executed r = false
  /\ questions r = []
  /\ overall_score r = 0%Z
  /\ errors r = [message]
  /\ occurs_in (name Examples.nb_path) message.
Proof.
  apply (execution_failure_scores_nothing
           Examples.world_failing Examples.nb_path Examples.config Examples.nb
           (Exception (lit "Cell execution timed out"))); reflexivity.
Defined.

(** ** C4: the unreplaced placeholder *)

(** C4. [check_code_contains_ellipsis] holds exactly when the source contains
    the three dots and neither triple-quote delimiter; a code question whose
    cell source satisfies it gets score 0 and the placeholder feedback,
    whatever the outputs of the cell, and this is the result recorded for it
    by a grading run. *)
Theorem placeholder_scores_zero w notebook_path test_config nb qid qc src :
  (check_code_contains_ellipsis src = true
   <-> occurs_in ELLIPSIS src
       /\ ~ occurs_in TRIPLE_DOUBLE_QUOTE src
       /\ ~ occurs_in TRIPLE_SINGLE_QUOTE src)
  /\ (cfg_type qc = lit "code" ->
      get_cell_source nb (cfg_cell_index qc) = Ok src ->
      check_code_contains_ellipsis src = true ->
      let placeholder_result :=
        {| passed := false;
           score := 0;
           q_max_score := points_of qc;
           feedback := [lit "Code still contains '...' placeholder"] |} in
      grade_question nb qc = Ok placeholder_result
      /\ (dict_wf (questions_of test_config) ->
          execute_notebook w notebook_path 600 = Ok nb ->
          In (qid, qc) (questions_of test_config) ->
          forall qr,
            In (qid, qr) (questions (test_notebook w notebook_path test_config)) ->
            qr = placeholder_result)).
Proof.
  split.
  - unfold check_code_contains_ellipsis.
    rewrite andb_true_iff, negb_true_iff, orb_false_iff.
    now rewrite str_in_iff, !str_in_false_iff.
  - intros Htype Hsrc Hell placeholder_result.
    assert (Hg : grade_question nb qc = Ok placeholder_result).
    { unfold grade_question. rewrite Htype. simpl str_eqb. cbv iota.
      rewrite Hsrc. simpl. now rewrite Hell. }
    split; [exact Hg|].
    intros Hwf Hex Hin qr Hqr.
    rewrite (test_notebook_executed _ _ _ _ Hwf Hex) in Hqr. simpl in Hqr.
    destruct (graded_in _ _ _ _ Hqr) as [qc' [Hin' Hg']].
    assert (qc = qc') as <- by exact (dict_key_unique _ _ _ _ Hwf Hin Hin').
    congruence.
Qed.

Lemma placeholder_scores_zero_witness :
  let placeholder_result :=
    {| passed := false;
       score := 0;
       q_max_score := 2;
       feedback := [lit "Code still contains '...' placeholder"] |} in
  check_code_contains_ellipsis (lit "print(...)") = true
  /\ grade_question Examples.nb Examples.q_placeholder = Ok placeholder_result
  /\ forall qr,
       In (lit "Q2", qr)
          (questions (test_notebook Examples.world_ok Examples.nb_path Examples.config)) ->
       qr = placeholder_result.
Proof.
  destruct (placeholder_scores_zero
              Examples.world_ok Examples.nb_path Examples.config Examples.nb
              (lit "Q2") Examples.q_placeholder (lit "print(...)"))
    as [_ H].
  destruct H as [Hg Hrun]; [reflexivity | reflexivity | reflexivity |].
  split; [reflexivity|]. split; [exact Hg|].
  apply Hrun.
  - unfold dict_wf. simpl.
    repeat (constructor; [simpl; intuition discriminate|]). constructor.
  - reflexivity.
  - simpl. right. left. reflexivity.
Defined.

(** ** C5: the essay check *)

(** The essay check with a minimum length of 20, the cell being the one that
    [nb.cells[cell_index]] yields: an essay is reported as answered exactly
    when that cell is a markdown cell, its trimmed source does not contain
    the placeholder phrase in any letter case, and the trimmed source has at
    least 20 characters.  An answered essay question gets its full points
    and a feedback that asks for manual review; a question reported as not
    answered gets 0. *)
Theorem essay_answered_iff nb cell_index qc answer :
  (check_essay_answered nb cell_index 20 = Ok (true, answer)
   <-> exists cell,
         getitem (cells nb) cell_index = Ok cell
         /\ cell_type cell = markdown
         /\ answer = strip (source cell)
         /\ ~ occurs_in PLACEHOLDER (lower answer)
         /\ 20 <= length answer)
  /\ (cfg_type qc = lit "essay" ->
      check_essay_answered nb (cfg_cell_index qc) 20 = Ok (true, answer) ->
      grade_question nb qc =
      Ok {| passed := true;
            score := points_of qc;
            q_max_score := points_of qc;
            feedback :=
              [CHECK_MARK :: lit " Answer provided (requires manual review)"] |})
  /\ (cfg_type qc = lit "essay" ->
      check_essay_answered nb (cfg_cell_index qc) 20 = Ok (false, answer) ->
      grade_question nb qc =
      Ok {| passed := false;
            score := 0;
            q_max_score := points_of qc;
            feedback := [lit "No answer provided or too short"] |}).
Proof.
  split; [|split].
  - unfold check_essay_answered. split.
    + destruct (Z.leb_spec (Z.of_nat (length (cells nb))) cell_index);
        [discriminate|].
      destruct (getitem (cells nb) cell_index) as [cell|]; [|discriminate].
      simpl. destruct (cell_type cell) eqn:Ety; simpl; try discriminate.
      destruct (str_in PLACEHOLDER (lower (strip (source cell)))) eqn:Eph;
        [discriminate|].
      destruct (Nat.ltb_spec (length (strip (source cell))) 20);
        [discriminate|].
      intros [= <-]. exists cell.
      repeat split; try easy. now apply str_in_false_iff.
    + intros [cell (Hget & Hty & -> & Hph & Hlen)].
      pose proof (getitem_ok_lt _ _ _ Hget) as Hlt.
      destruct (Z.leb_spec (Z.of_nat (length (cells nb))) cell_index); [lia|].
      rewrite Hget. simpl. rewrite Hty. simpl.
      apply str_in_false_iff in Hph. rewrite Hph.
      destruct (Nat.ltb_spec (length (strip (source cell))) 20); [lia|].
      reflexivity.
  - intros Htype Hans. unfold grade_question. rewrite Htype. simpl str_eqb.
    cbv iota. now rewrite Hans.
  - intros Htype Hans. unfold grade_question. rewrite Htype. simpl str_eqb.
    cbv iota. now rewrite Hans.
Qed.

Lemma essay_answered_iff_witness :
  check_essay_answered Examples.nb 2 20 =
  Ok (true, lit "The plus sign adds numbers and joins strings.")
  /\ grade_question Examples.nb Examples.q_essay =
     Ok {| passed := true;
           score := 2;
           q_max_score := 2;
           feedback :=
             [CHECK_MARK :: lit " Answer provided (requires manual review)"] |}.
Proof.
  destruct (essay_answered_iff Examples.nb 2 Examples.q_essay
              (lit "The plus sign adds numbers and joins strings."))
    as (_ & H & _).
  split; [reflexivity|].
  apply H; reflexivity.
Defined.

(** C5 (code defect). The essay check guards only the upper end of the cell
    range, as the extractors do.  On a notebook of three cells whose last
    cell is an answered markdown cell, index -1 is reported as answered and
    the question gets its full points although no cell has that position;
    index -4, and index -1 on the empty notebook, raise [IndexError] instead
    of reporting the essay as not answered, and in a grading run that
    exception leaves the loop, so that the next question is never scored. *)
Theorem essay_check_negative_index :
  check_essay_answered Examples.nb (-1) 20
  = Ok (true, lit "The plus sign adds numbers and joins strings.")
  /\ grade_question Examples.nb Samples.q_essay_from_end
     = Ok {| passed := true;
             score := 2;
             q_max_score := 2;
             feedback :=
               [CHECK_MARK :: lit " Answer provided (requires manual review)"] |}
  /\ check_essay_answered Examples.nb (-4) 20
     = Raise (IndexError (lit "list index out of range"))
  /\ check_essay_answered Examples.empty_nb (-1) 20
     = Raise (IndexError (lit "list index out of range"))
  /\ test_notebook Examples.world_ok Examples.nb_path Samples.config_negative
     = {| notebook := lit "01_excercises_print.ipynb";
          executed := true;
          questions := [];
          overall_score := 0;
          max_score := 2;
          errors := [lit "list index out of range"] |}.
Proof. repeat split; vm_compute; reflexivity. Qed.

(** ** C6: the cell extractor and negative indices *)

Section NegativeIndex.

(** Below [-len] both extractors raise. *)
Lemma extractor_below_range nb i :
  (i < - Z.of_nat (length (cells nb)))%Z ->
  get_cell_source nb i = Raise (IndexError (lit "list index out of range"))
  /\ get_cell_output nb i = Raise (IndexError (lit "list index out of range")).
Proof.
  intros H. unfold get_cell_source, get_cell_output.
  destruct (Z.leb_spec (Z.of_nat (length (cells nb))) i); [lia|].
  now rewrite getitem_below_range.
Qed.

End NegativeIndex.

(** C6 (code defect). The range guard of both extractors tests only the upper
    end.  On the empty notebook index -1 raises [IndexError] instead of
    yielding empty text, and on a notebook of three cells index -1 yields
    the source of the last cell and index -3 the output of the first. *)
Theorem extractor_negative_index :
  get_cell_source Examples.empty_nb (-1)
  = Raise (IndexError (lit "list index out of range"))
  /\ get_cell_output Examples.empty_nb (-1)
     = Raise (IndexError (lit "list index out of range"))
  /\ get_cell_source Examples.nb (-1)
     = Ok (lit "The plus sign adds numbers and joins strings.")
  /\ get_cell_output Examples.nb (-3) = Ok (lit "Hello World").
Proof. repeat split. Qed.

(** ** C3: code questions and their expected outputs *)

Section CodeQuestions.

Lemma first_match_iff output expected_outputs :
  first_match output expected_outputs = true
  <-> exists expected,
        In expected expected_outputs
        /\ check_output_matches output expected true = true.
Proof.
  induction expected_outputs as [|x l IH]; cbn [first_match In].
  - split; [discriminate | now intros [? [[] _]]].
  - destruct (check_output_matches output x true) eqn:E.
    + split; [|reflexivity]. intros _. exists x. now split; [left|].
    + rewrite IH. split.
      * intros [y [Hin Hy]]. exists y. now split; [right|].
      * intros [y [[<-|Hin] Hy]]; [congruence|]. now exists y.
Qed.

Lemma slice_to_length n s : length (slice_to n s) <= n.
Proof. unfold slice_to. rewrite length_firstn. lia. Qed.

(** A code question without placeholder and with at least one expected
    output: it passes with full points exactly when some expected output
    matches, and otherwise gets 0 and the two truncated previews. *)
Lemma grade_question_code nb qc src out first rest :
  cfg_type qc = lit "code" ->
  get_cell_source nb (cfg_cell_index qc) = Ok src ->
  check_code_contains_ellipsis src = false ->
  get_cell_output nb (cfg_cell_index qc) = Ok out ->
  expected_outputs_of qc = first :: rest ->
  exists qr,
    grade_question nb qc = Ok qr
    /\ q_max_score qr = points_of qc
    /\ (if first_match out (first :: rest)
        then passed qr = true /\ score qr = points_of qc
        else passed qr = false /\ score qr = 0%Z
             /\ exists more,
                 feedback qr =
                 (lit "Expected output like: " ++ slice_to 50 first ++ lit "...")
                 :: (lit "Got: " ++ slice_to 50 out ++ lit "...") :: more).
Proof.
  intros Htype Hsrc Hell Hout Hexp.
  unfold grade_question. rewrite Htype. simpl str_eqb. cbv iota.
  rewrite Hsrc. simpl bind. rewrite Hell, Hout. simpl bind. rewrite Hexp.
  destruct (first_match out (first :: rest)).
  - simpl bind. destruct (run_basic_linting src);
      eexists; (split; [reflexivity|]); simpl; auto.
  - change (getitem (first :: rest) 0) with (Ok first). simpl bind.
    destruct (run_basic_linting src);
      eexists; (split; [reflexivity|]); simpl; eauto.
Qed.

End CodeQuestions.

(** C3 (code defect). A code question whose list of expected outputs is empty
    raises [IndexError] while its feedback is built: the question is not
    recorded, the loop over the questions is left, and the next question,
    which would pass, is never scored. *)
Theorem empty_expected_outputs_abort_grading :
  grade_question Examples.nb Examples.q_no_expected
  = Raise (IndexError (lit "list index out of range"))
  /\ test_notebook Examples.world_ok Examples.nb_path Examples.config_no_expected
     = {| notebook := lit "01_excercises_print.ipynb";
          executed := true;
          questions := [];
          overall_score := 0;
          max_score := 2;
          errors := [lit "list index out of range"] |}
  /\ grade_question Examples.nb Examples.q_hello
     = Ok {| passed := true;
             score := 2;
             q_max_score := 2;
             feedback := [CHECK_MARK :: lit " Correct output"] |}.
Proof. repeat split. Qed.

(** * The commit analyzer *)

Section Commits.

Lemma is_descriptive_eq msg : is_descriptive msg = is_descriptive_spec msg.
Proof. unfold is_descriptive, is_descriptive_spec. now rewrite strip_lower. Qed.

Lemma count_descriptive_filter msgs acc :
  count_descriptive msgs acc
  = (acc + Z.of_nat (length (filter is_descriptive_spec msgs)))%Z.
Proof.
  revert acc. induction msgs as [|m msgs IH]; intros acc; simpl; [lia|].
  rewrite IH, is_descriptive_eq.
  destruct (is_descriptive_spec m); simpl length; lia.
Qed.

Lemma filter_length_perm {A : Type} (f : A -> bool) (a b : list A) :
  Permutation a b -> length (filter f a) = length (filter f b).
Proof.
  induction 1 as [|x a b _ IH|x y a|a b c _ IH1 _ IH2]; simpl.
  - reflexivity.
  - destruct (f x); simpl; now rewrite IH.
  - destruct (f x), (f y); reflexivity.
  - now rewrite IH1.
Qed.

Lemma ratio_is_quotient (d n : Z) :
  (0 < n)%Z -> (Qmake d (Z.to_pos n) == inject_Z d / inject_Z n)%Q.
Proof.
  intros H. destruct n as [|p|p]; try lia.
  unfold Qeq, Qdiv, Qmult, Qinv, inject_Z. simpl. lia.
Qed.

(** Exceptions other than [CalledProcessError] leave [analyze_commits]. *)
Lemma analyze_commits_propagates w repo_path min_commits msg :
  subprocess_run w GIT_REV_LIST repo_path = Raise (OSError msg) ->
  analyze_commits w repo_path min_commits = Raise (OSError msg).
Proof.
  intros H. unfold analyze_commits, analyze_commits_body. now rewrite H.
Qed.

End Commits.

(** ** C8: descriptive commit messages *)

(** C8. When both version-control queries succeed and the count is a natural
    number [n], [analyze_commits] counts exactly the messages whose trimmed
    length is at least 10 and whose lowercase trimmed form is not a generic
    word, and returns the ratio of that count to [n], or 0 when [n] is 0.
    Of "fix", "wip" and the long sample message only the last is
    descriptive; with two more messages that are not descriptive and five
    commits, the count is 1 and the ratio one fifth. *)
Theorem analyze_commits_descriptive w repo_path min_commits count_out log_out n :
  subprocess_run w GIT_REV_LIST repo_path = Ok count_out ->
  int_of_str (strip count_out) = Some n ->
  (0 <= n)%Z ->
  subprocess_run w GIT_LOG repo_path = Ok log_out ->
  exists r,
    analyze_commits w repo_path min_commits = Ok r
    /\ commit_count r = n
    /\ meets_minimum r = (min_commits <=? n)%Z
    /\ messages r = split_char NEWLINE (strip log_out)
    /\ descriptive_count r
       = Z.of_nat (length (filter is_descriptive_spec (messages r)))
    /\ (descriptive_ratio r
        == if (n =? 0)%Z then 0
           else inject_Z (descriptive_count r) / inject_Z n)%Q
    /\ error r = None
    /\ map is_descriptive_spec
         [lit "fix"; lit "wip";
          lit "added sphere volume calculation with proper docstring"]
       = [false; false; true]
    /\ (forall m1 m2,
          n = 5%Z ->
          is_descriptive_spec m1 = false ->
          is_descriptive_spec m2 = false ->
          Permutation (messages r)
            [lit "fix"; lit "wip";
             lit "added sphere volume calculation with proper docstring";
             m1; m2] ->
          descriptive_count r = 1%Z /\ descriptive_ratio r = (1 # 5)%Q).
Proof.
  intros Hcount Hint Hn Hlog.
  eexists. split.
  { unfold analyze_commits, analyze_commits_body.
    rewrite Hcount. simpl bind. rewrite Hint. simpl bind. rewrite Hlog.
    simpl bind. reflexivity. }
  cbn [commit_count meets_minimum messages descriptive_count descriptive_ratio
       error].
  rewrite count_descriptive_filter, Z.add_0_l.
  do 4 (split; [reflexivity|]).
  split; [|split; [reflexivity|split; [reflexivity|]]].
  - destruct (Z.eqb_spec n 0) as [->|Hne]; [reflexivity|].
    destruct (Z.ltb_spec 0 n); [|lia].
    now apply ratio_is_quotient.
  - intros m1 m2 -> Hm1 Hm2 Hperm.
    rewrite (filter_length_perm is_descriptive_spec _ _ Hperm).
    cbn [filter]. change (is_descriptive_spec (lit "fix")) with false.
    change (is_descriptive_spec (lit "wip")) with false.
    change (is_descriptive_spec
              (lit "added sphere volume calculation with proper docstring"))
      with true.
    rewrite Hm1, Hm2. split; reflexivity.
Qed.

Lemma analyze_commits_descriptive_witness :
  analyze_commits Examples.world_ok Examples.repo_path 3
  = Ok {| commit_count := 5;
          meets_minimum := true;
          descriptive_count := 1;
          descriptive_ratio := (1 # 5)%Q;
          messages := Examples.five_messages;
          error := None |}.
Proof.
  destruct (analyze_commits_descriptive
              Examples.world_ok Examples.repo_path 3
              (lit "5" ++ [NEWLINE]) Examples.five_subjects 5)
    as [r (Hr & Hc & Hmin & Hmsgs & _ & _ & Herr & _ & Hfive)];
    [reflexivity | reflexivity | lia | reflexivity |].
  destruct (Hfive (lit "update") (lit "done")) as [Hd Hq];
    [reflexivity | reflexivity | reflexivity | rewrite Hmsgs; apply Permutation_refl |].
  rewrite Hr. destruct r; simpl in *. subst. reflexivity.
Defined.

(** ** C9: failing version-control queries *)




(** * Further properties of the matcher *)

Section MatcherFacts.

Lemma normalized_canonical s : normalized s = canonical (lower s).
Proof. unfold normalized. apply re_sub_ws_strip. Qed.

Lemma check_flexible_eqb a e :
  check_output_matches a e true = str_eqb (normalized a) (normalized e).
Proof. reflexivity. Qed.

Lemma canonical_idem s : canonical (canonical s) = canonical s.
Proof. unfold canonical at 1. now rewrite words_canonical. Qed.

Lemma normalized_idem s : normalized (normalized s) = normalized s.
Proof.
  rewrite !normalized_canonical. apply canonical_inj.
  rewrite (words_lower (canonical (lower s))), words_canonical, words_lower.
  rewrite map_map. apply map_ext. exact lower_idem.
Qed.

Lemma words_blank_prefix pre s :
  forallb isspace pre = true -> words (pre ++ s) = words s.
Proof.
  induction pre as [|c pre IH]; simpl; [reflexivity|].
  intros H. apply andb_true_iff in H as [Hc Hpre]. rewrite Hc. now apply IH.
Qed.

Lemma starts_word_app s post :
  s <> [] -> starts_word (s ++ post) = starts_word s.
Proof. now destruct s. Qed.

Lemma starts_word_blank s : forallb isspace s = true -> starts_word s = false.
Proof.
  destruct s as [|c t]; simpl; [reflexivity|].
  intros H. apply andb_true_iff in H as [-> _]. reflexivity.
Qed.

Lemma words_blank_suffix s post :
  forallb isspace post = true -> words (s ++ post) = words s.
Proof.
  intros Hpost. induction s as [|c t IH].
  - simpl. now apply words_nil_iff.
  - simpl. destruct (isspace c); [exact IH|].
    rewrite IH. destruct t as [|d t']; [|reflexivity].
    simpl. now rewrite (starts_word_blank _ Hpost).
Qed.

Lemma normalized_padding pre s post :
  forallb isspace pre = true ->
  forallb isspace post = true ->
  normalized (pre ++ s ++ post) = normalized s.
Proof.
  intros Hpre Hpost. rewrite !normalized_canonical. apply canonical_inj.
  rewrite !words_lower, words_blank_prefix by exact Hpre.
  now rewrite words_blank_suffix by exact Hpost.
Qed.

Lemma lstrip_idem s : lstrip (lstrip s) = lstrip s.
Proof.
  induction s as [|c t IH]; simpl; [reflexivity|].
  destruct (isspace c) eqn:E; [exact IH|]. simpl. now rewrite E.
Qed.

Lemma rstrip_idem s : rstrip (rstrip s) = rstrip s.
Proof. unfold rstrip. now rewrite rev_involutive, lstrip_idem. Qed.

Lemma lstrip_strip s : lstrip (strip s) = strip s.
Proof.
  destruct (strip_starts s) as [-> | H]; [reflexivity|].
  destruct (strip s) as [|c t]; [reflexivity|].
  simpl in *. apply negb_true_iff in H. now rewrite H.
Qed.

Lemma strip_idem s : strip (strip s) = strip s.
Proof.
  unfold strip at 1. rewrite lstrip_strip. unfold strip. apply rstrip_idem.
Qed.

End MatcherFacts.

(** X1. In strict mode the matcher compares the trimmed texts, and a strict
    match is always a flexible match. *)
Theorem strict_match_implies_flexible (actual expected : str) :
  (check_output_matches actual expected false = true
   <-> strip actual = strip expected)
  /\ (check_output_matches actual expected false = true ->
      check_output_matches actual expected true = true).
Proof.
  assert (H : check_output_matches actual expected false = true
              <-> strip actual = strip expected).
  { unfold check_output_matches. apply str_eqb_eq. }
  split; [exact H|].
  intros Hs. apply H in Hs.
  unfold check_output_matches. apply str_eqb_eq.
  now rewrite !strip_lower, Hs.
Qed.

Lemma strict_match_implies_flexible_witness :
  check_output_matches (lit "  Hello World ") (lit "Hello World") true = true.
Proof.
  apply (strict_match_implies_flexible (lit "  Hello World ") (lit "Hello World")).
  reflexivity.
Defined.

(** X2. Flexible matching is an equivalence: every text matches itself, the
    answer does not depend on which text is the actual and which the
    expected one, and two texts matching a third match each other. *)
Theorem flexible_match_equivalence (a b c : str) :
  check_output_matches a a true = true
  /\ check_output_matches a b true = check_output_matches b a true
  /\ (check_output_matches a b true = true ->
      check_output_matches b c true = true ->
      check_output_matches a c true = true).
Proof.
  rewrite !check_flexible_eqb. split; [apply str_eqb_refl|]. split.
  - destruct (str_eqb (normalized a) (normalized b)) eqn:E.
    + apply str_eqb_eq in E. rewrite E. symmetry. apply str_eqb_refl.
    + destruct (str_eqb (normalized b) (normalized a)) eqn:E'; [|reflexivity].
      apply str_eqb_eq in E'. rewrite E', str_eqb_refl in E. discriminate.
  - rewrite !str_eqb_eq. congruence.
Qed.

Lemma flexible_match_equivalence_witness :
  check_output_matches (lit "HELLO  world") (lit "hello world") true = true.
Proof.
  apply (flexible_match_equivalence
           (lit "HELLO  world") (lit "Hello World") (lit "hello world"));
    reflexivity.
Defined.

(** X3. The answer of the flexible matcher does not change when whitespace
    is put before or after the actual text (a trailing newline for
    instance), nor when the actual text is replaced by its normalized form;
    normalizing twice is normalizing once. *)
Theorem flexible_match_ignores_padding (actual expected pre post : str) :
  forallb isspace pre = true ->
  forallb isspace post = true ->
  check_output_matches (pre ++ actual ++ post) expected true
  = check_output_matches actual expected true
  /\ check_output_matches (normalized actual) expected true
     = check_output_matches actual expected true
  /\ normalized (normalized actual) = normalized actual.
Proof.
  intros Hpre Hpost. rewrite !check_flexible_eqb.
  rewrite normalized_padding by assumption.
  now rewrite normalized_idem.
Qed.

Lemma flexible_match_ignores_padding_witness :
  check_output_matches (lit " " ++ lit "Hello World" ++ [NEWLINE])
    (lit "hello world") true
  = check_output_matches (lit "Hello World") (lit "hello world") true
  /\ check_output_matches (normalized (lit "Hello World")) (lit "hello world") true
     = check_output_matches (lit "Hello World") (lit "hello world") true
  /\ normalized (normalized (lit "Hello World")) = normalized (lit "Hello World").
Proof.
  apply (flexible_match_ignores_padding
           (lit "Hello World") (lit "hello world") (lit " ") [NEWLINE]);
    reflexivity.
Defined.

(** * Further properties of the cell extractor *)

Section ExtractorFacts.

Lemma collect_output_text_app a b :
  collect_output_text (a ++ b) = collect_output_text a ++ collect_output_text b.
Proof.
  induction a as [|o a IH]; simpl; [reflexivity|].
  destruct o; simpl; now rewrite IH.
Qed.

Lemma collect_output_text_no_errors outs :
  collect_output_text (filter (fun o => negb (is_error_output o)) outs)
  = collect_output_text outs.
Proof.
  induction outs as [|o outs IH]; simpl; [reflexivity|].
  destruct o; simpl; now rewrite IH.
Qed.

End ExtractorFacts.

(** X4. On an index that is not negative both extractors return and never
    raise.  Beyond the last cell both texts are empty; on a cell the source
    is the cell's source, the output of a cell that is not a code cell is
    empty, and the output never begins or ends with whitespace. *)
Theorem extractors_on_valid_index nb i :
  (0 <= i)%Z ->
  exists src out,
    get_cell_source nb i = Ok src
    /\ get_cell_output nb i = Ok out
    /\ strip out = out
    /\ ((Z.of_nat (length (cells nb)) <= i)%Z -> src = [] /\ out = [])
    /\ (forall cell,
          nth_error (cells nb) (Z.to_nat i) = Some cell ->
          src = source cell /\ (cell_type cell <> code -> out = [])).
Proof.
  intros H. rewrite get_cell_source_nonneg, get_cell_output_nonneg by exact H.
  do 2 eexists. split; [reflexivity|]. split; [reflexivity|].
  destruct (nth_error (cells nb) (Z.to_nat i)) as [cell|] eqn:E.
  - split; [|split].
    + destruct (cell_type cell); try reflexivity. apply strip_idem.
    + intros Hlen. assert (nth_error (cells nb) (Z.to_nat i) = None)
        by (apply nth_error_None; lia). congruence.
    + intros cell' [= <-]. split; [reflexivity|].
      now destruct (cell_type cell).
  - split; [reflexivity|]. split; [easy|]. discriminate.
Qed.

Lemma extractors_on_valid_index_witness :
  exists src out,
    get_cell_source Examples.nb 0 = Ok src
    /\ get_cell_output Examples.nb 0 = Ok out
    /\ strip out = out
    /\ ((Z.of_nat (length (cells Examples.nb)) <= 0)%Z -> src = [] /\ out = [])
    /\ (forall cell,
          nth_error (cells Examples.nb) (Z.to_nat 0) = Some cell ->
          src = source cell /\ (cell_type cell <> code -> out = [])).
Proof. apply (extractors_on_valid_index Examples.nb 0). lia. Defined.

(** X5. The text collected from the outputs of a cell is the concatenation,
    in order, of the texts collected from any two consecutive parts of the
    output list, and removing the error outputs does not change it. *)
Theorem output_text_in_order (before after outs : list Output) :
  join_empty (collect_output_text (before ++ after))
  = join_empty (collect_output_text before)
    ++ join_empty (collect_output_text after)
  /\ collect_output_text (filter (fun o => negb (is_error_output o)) outs)
     = collect_output_text outs.
Proof.
  split.
  - unfold join_empty. now rewrite collect_output_text_app, concat_app.
  - apply collect_output_text_no_errors.
Qed.

(** * Further properties of a grading run *)

Section GradingFacts.

Lemma grade_questions_fields nb qs results :
  let out := fst (grade_questions nb qs results) in
  notebook out = notebook results
  /\ executed out = executed results
  /\ errors out = errors results.
Proof.
  revert results. induction qs as [|[qid qc] qs IH]; intros results; simpl.
  - auto.
  - destruct (grade_question nb qc) as [qr|e]; simpl; [|auto].
    apply (IH (record_question (add_max_score results (points_of qc)) qid qr)).
Qed.

Lemma check_essay_answered_nonneg nb i n :
  (0 <= i)%Z -> exists answered text, check_essay_answered nb i n = Ok (answered, text).
Proof.
  intros H. unfold check_essay_answered.
  destruct (Z.leb_spec (Z.of_nat (length (cells nb))) i); [now eexists _, _|].
  destruct (getitem_in_range (cells nb) i) as [cell [_ ->]]; [lia|].
  simpl. destruct (negb (CellType_eqb (cell_type cell) markdown));
    [now eexists _, _|].
  destruct (str_in PLACEHOLDER (lower (strip (source cell))));
    [now eexists _, _|].
  destruct (length (strip (source cell)) <? n)%nat; now eexists _, _.
Qed.

Lemma grade_question_safe nb qc :
  safe_question qc = true -> exists qr, grade_question nb qc = Ok qr.
Proof.
  unfold safe_question. rewrite andb_true_iff, Z.leb_le.
  intros [Hidx Hexp]. unfold grade_question.
  destruct (str_eqb (cfg_type qc) (lit "code")).
  - rewrite get_cell_source_nonneg by exact Hidx. simpl bind.
    destruct (check_code_contains_ellipsis _); [now eexists|].
    rewrite get_cell_output_nonneg by exact Hidx. simpl bind.
    destruct (first_match _ (expected_outputs_of qc)).
    + simpl bind. destruct (run_basic_linting _); now eexists.
    + simpl in Hexp.
      destruct (expected_outputs_of qc) as [|first rest]; [discriminate|].
      change (getitem (first :: rest) 0) with (Ok first). simpl bind.
      destruct (run_basic_linting _); now eexists.
  - destruct (str_eqb (cfg_type qc) (lit "essay")); [|now eexists].
    destruct (check_essay_answered_nonneg nb (cfg_cell_index qc) 20 Hidx)
      as [answered [text ->]].
    simpl. destruct answered; now eexists.
Qed.

Lemma first_exception_safe nb qs :
  safe_questions qs -> first_exception nb qs = None.
Proof.
  unfold safe_questions.
  induction qs as [|[qid qc] qs IH]; simpl; intros H; [reflexivity|].
  inversion H as [|? ? Hq Hrest]; subst. simpl in Hq.
  destruct (grade_question_safe nb qc Hq) as [qr ->]. now apply IH.
Qed.

Lemma dict_get_in {V : Type} (d : dict V) k v :
  NoDup (map fst d) -> In (k, v) d -> dict_get d k = Some v.
Proof.
  induction d as [|[k0 v0] d IH]; simpl; [easy|].
  intros Hnd. inversion Hnd as [|? ? Hnotin Hnd']; subst.
  intros [[= -> ->]|Hin].
  - now rewrite str_eqb_refl.
  - rewrite str_eqb_neq; [now apply IH|].
    intros ->. apply Hnotin. change k with (fst (k, v)). now apply in_map.
Qed.

Lemma dict_get_some {V : Type} (d : dict V) k v :
  dict_get d k = Some v -> In (k, v) d.
Proof.
  induction d as [|[k0 v0] d IH]; simpl; [discriminate|].
  destruct (str_eqb k0 k) eqn:E.
  - apply str_eqb_eq in E. intros [= ->]. left. now subst.
  - intros H. right. now apply IH.
Qed.

Lemma graded_all nb qs qid qc :
  first_exception nb qs = None ->
  In (qid, qc) qs ->
  exists qr, In (qid, qr) (graded nb qs) /\ grade_question nb qc = Ok qr.
Proof.
  induction qs as [|[k c] qs IH]; simpl; [easy|].
  destruct (grade_question nb c) as [r|e] eqn:E; [|discriminate].
  intros Hfe [[= -> ->]|Hin].
  - exists r. split; [now left | exact E].
  - destruct (IH Hfe Hin) as [qr [Hg Hq]]. exists qr. split; [now right | exact Hq].
Qed.

Lemma graded_prefix nb qs :
  exists n, map fst (graded nb qs) = firstn n (map fst qs).
Proof.
  induction qs as [|[k c] qs [n IH]]; [now exists 0|].
  simpl. destruct (grade_question nb c).
  - exists (S n). simpl. now rewrite IH.
  - now exists 0.
Qed.

End GradingFacts.

(** X6. A code question whose cell has no placeholder and whose list of
    expected outputs is not empty passes exactly when the output of the cell
    flexibly matches one of the expected outputs; its score is the full
    points when it passes and 0 when it does not, and a failed question
    gets the expected and the actual text as previews of at most 50
    characters. *)
Theorem code_question_scored_by_match nb qc src out first rest :
  cfg_type qc = lit "code" ->
  get_cell_source nb (cfg_cell_index qc) = Ok src ->
  check_code_contains_ellipsis src = false ->
  get_cell_output nb (cfg_cell_index qc) = Ok out ->
  expected_outputs_of qc = first :: rest ->
  exists qr,
    grade_question nb qc = Ok qr
    /\ (passed qr = true
        <-> exists expected,
              In expected (first :: rest)
              /\ check_output_matches out expected true = true)
    /\ score qr = (if passed qr then points_of qc else 0%Z)
    /\ (passed qr = false ->
        exists more,
          feedback qr =
          (lit "Expected output like: " ++ slice_to 50 first ++ lit "...")
          :: (lit "Got: " ++ slice_to 50 out ++ lit "...") :: more)
    /\ length (slice_to 50 first) <= 50
    /\ length (slice_to 50 out) <= 50.
Proof.
  intros Htype Hsrc Hell Hout Hexp.
  destruct (grade_question_code nb qc src out first rest Htype Hsrc Hell Hout Hexp)
    as [qr (Hg & _ & Hm)].
  exists qr. split; [exact Hg|].
  rewrite <- first_match_iff.
  destruct (first_match out (first :: rest)).
  - destruct Hm as [Hp Hs]. rewrite Hp, Hs.
    repeat split; try easy; apply slice_to_length.
  - destruct Hm as (Hp & Hs & more & Hf). rewrite Hp, Hs.
    repeat split; try easy; try apply slice_to_length.
    intros _. now exists more.
Qed.

Lemma code_question_scored_by_match_witness :
  exists qr,
    grade_question Examples.nb Examples.q_hello = Ok qr
    /\ (passed qr = true
        <-> exists expected,
              In expected [lit "Hello World"]
              /\ check_output_matches (lit "Hello World") expected true = true)
    /\ score qr = (if passed qr then points_of Examples.q_hello else 0%Z)
    /\ (passed qr = false ->
        exists more,
          feedback qr =
          (lit "Expected output like: " ++ slice_to 50 (lit "Hello World")
             ++ lit "...")
          :: (lit "Got: " ++ slice_to 50 (lit "Hello World") ++ lit "...") :: more)
    /\ length (slice_to 50 (lit "Hello World")) <= 50
    /\ length (slice_to 50 (lit "Hello World")) <= 50.
Proof.
  apply (code_question_scored_by_match Examples.nb Examples.q_hello
           (lit "print('Hello' + ' ' + 'World')") (lit "Hello World")
           (lit "Hello World") []); reflexivity.
Defined.

(** X7. When the question ids are distinct, no cell index is negative and
    every code question lists at least one expected output, grading an
    executed notebook raises nothing: no error is recorded, every configured
    question has a result, in the order of the configuration, [max_score] is
    the sum of the configured points, and looking a question up gives the
    result computed from its own configuration. *)
Theorem safe_configuration_grades_every_question w notebook_path test_config nb :
  dict_wf (questions_of test_config) ->
  safe_questions (questions_of test_config) ->
  execute_notebook w notebook_path 600 = Ok nb ->
  let r := test_notebook w notebook_path test_config in
  executed r = true
  /\ errors r = []
  /\ map fst (questions r) = map fst (questions_of test_config)
  /\ max_score r = sum_points (questions_of test_config)
  /\ (forall qid qc,
        In (qid, qc) (questions_of test_config) ->
        exists qr, dict_get (questions r) qid = Some qr
                   /\ grade_question nb qc = Ok qr).
Proof.
  intros Hwf Hsafe Hex r. subst r.
  rewrite (test_notebook_executed _ _ _ _ Hwf Hex). simpl.
  pose proof (first_exception_safe nb _ Hsafe) as Hfe. rewrite Hfe.
  destruct (graded_complete _ _ Hfe) as [Hkeys Hpts].
  repeat split; try assumption.
  intros qid qc Hin.
  destruct (graded_all _ _ _ _ Hfe Hin) as [qr [Hg Hq]].
  exists qr. split; [|exact Hq].
  apply dict_get_in; [|exact Hg].
  rewrite Hkeys. exact Hwf.
Qed.

Lemma safe_configuration_grades_every_question_witness :
  let r := test_notebook Examples.world_ok Examples.nb_path Examples.config in
  executed r = true
  /\ errors r = []
  /\ map fst (questions r) = map fst (questions_of Examples.config)
  /\ max_score r = sum_points (questions_of Examples.config)
  /\ (forall qid qc,
        In (qid, qc) (questions_of Examples.config) ->
        exists qr, dict_get (questions r) qid = Some qr
                   /\ grade_question Examples.nb qc = Ok qr).
Proof.
  apply (safe_configuration_grades_every_question
           Examples.world_ok Examples.nb_path Examples.config Examples.nb).
  - unfold dict_wf. simpl.
    repeat (constructor; [simpl; intuition discriminate|]). constructor.
  - unfold safe_questions. simpl. repeat constructor.
  - reflexivity.
Defined.

(** X8. With the configuration as shipped, grading any configured notebook
    that executes records a result for each of its questions and no error,
    and [max_score] is the positive sum of the configured points. *)
Theorem shipped_configuration_never_raises w notebook_full_path notebook_path nb :
  In notebook_path (get_all_configured_notebooks Week1.assignment_config) ->
  execute_notebook w notebook_full_path 600 = Ok nb ->
  let config := get_notebook_config Week1.assignment_config notebook_path in
  let r := test_notebook w notebook_full_path config in
  errors r = []
  /\ map fst (questions r) = map fst (questions_of config)
  /\ max_score r = sum_points (questions_of config)
  /\ (0 < max_score r)%Z.
Proof.
  intros Hin Hex config r.
  assert (H : dict_wf (questions_of config)
              /\ safe_questions (questions_of config)
              /\ (0 < sum_points (questions_of config))%Z).
  { subst config. simpl in Hin.
    destruct Hin as [<-|[<-|[<-|[<-|[]]]]];
      (split;
       [ unfold dict_wf; simpl;
         repeat (constructor; [simpl; intuition discriminate|]); constructor
       | split; [unfold safe_questions; simpl; repeat constructor
                | reflexivity] ]). }
  destruct H as (Hwf & Hsafe & Hpos). subst r.
  rewrite (test_notebook_executed _ _ _ _ Hwf Hex). simpl.
  pose proof (first_exception_safe nb _ Hsafe) as Hfe. rewrite Hfe.
  destruct (graded_complete _ _ Hfe) as [Hkeys Hpts].
  rewrite Hpts. auto.
Qed.

Lemma shipped_configuration_never_raises_witness :
  let config :=
    get_notebook_config Week1.assignment_config
      (lit "01_elements/01_excercises_print.ipynb") in
  let r := test_notebook Examples.world_ok Examples.nb_path config in
  errors r = []
  /\ map fst (questions r) = map fst (questions_of config)
  /\ max_score r = sum_points (questions_of config)
  /\ (0 < max_score r)%Z.
Proof.
  apply (shipped_configuration_never_raises
           Examples.world_ok Examples.nb_path
           (lit "01_elements/01_excercises_print.ipynb") Examples.nb).
  - simpl. right. left. reflexivity.
  - reflexivity.
Defined.

(** X9. Every run names its notebook and records at most one error.  The
    notebook counts as not executed exactly when reading it or running it
    raised; when reading raised, the single error is the text of that
    exception as it is, without the prefix that names the notebook. *)
Theorem failed_runs_characterised w notebook_path test_config :
  let r := test_notebook w notebook_path test_config in
  notebook r = name notebook_path
  /\ length (errors r) <= 1
  /\ (executed r = false
      <-> exists e, execute_notebook w notebook_path 600 = Raise e)
  /\ (forall e,
        nbformat_read w notebook_path = Raise e ->
        executed r = false /\ errors r = [exn_str e]).
Proof.
  intros r. subst r. unfold test_notebook.
  destruct (execute_notebook w notebook_path 600) as [nb|e] eqn:Hex.
  - assert (Hread : forall e', nbformat_read w notebook_path = Raise e' -> False).
    { intros e' H. unfold execute_notebook in Hex. rewrite H in Hex.
      discriminate. }
    match goal with
    | |- context [grade_questions nb ?qs ?r0] =>
        pose proof (grade_questions_fields nb qs r0) as H;
        destruct (grade_questions nb qs r0) as [r oe]
    end.
    simpl in H. destruct H as (Hn & He & Herr).
    destruct oe as [e|]; simpl; rewrite Hn, He, Herr; simpl.
    + split; [reflexivity|]. split; [lia|]. split.
      * split; [discriminate | now intros [e' He']].
      * intros e' H. destruct (Hread e' H).
    + split; [reflexivity|]. split; [lia|]. split.
      * split; [discriminate | now intros [e' He']].
      * intros e' H. destruct (Hread e' H).
  - simpl. split; [reflexivity|]. split; [lia|]. split.
    + split; [now exists e | reflexivity].
    + intros e' H. unfold execute_notebook in Hex.
      rewrite H in Hex. simpl in Hex. split; [reflexivity | congruence].
Qed.

Lemma failed_runs_characterised_witness :
  let r := test_notebook Samples.world_no_directory Examples.nb_path Examples.config in
  executed r = false /\ errors r = [lit "No such file or directory"].
Proof.
  destruct (failed_runs_characterised
              Samples.world_no_directory Examples.nb_path Examples.config)
    as (_ & _ & _ & H).
  apply (H (OSError (lit "No such file or directory"))). reflexivity.
Defined.

(** X10. The recorded questions are an initial part of the configured
    questions, in the order of the configuration, and each recorded result
    is the one computed from the notebook and the configuration of that
    question alone. *)
Theorem questions_recorded_in_configuration_order w notebook_path test_config :
  dict_wf (questions_of test_config) ->
  let r := test_notebook w notebook_path test_config in
  (exists n, map fst (questions r) = firstn n (map fst (questions_of test_config)))
  /\ (forall nb qid qr,
        execute_notebook w notebook_path 600 = Ok nb ->
        In (qid, qr) (questions r) ->
        exists qc, dict_get (questions_of test_config) qid = Some qc
                   /\ grade_question nb qc = Ok qr).
Proof.
  intros Hwf r. subst r.
  destruct (execute_notebook w notebook_path 600) as [nb|e] eqn:Hex.
  - rewrite (test_notebook_executed _ _ _ _ Hwf Hex). simpl. split.
    + apply graded_prefix.
    + intros nb' qid qr [= <-] Hin.
      destruct (graded_in _ _ _ _ Hin) as [qc [Hqc Hg]].
      exists qc. split; [|exact Hg]. now apply dict_get_in.
  - rewrite (test_notebook_failed _ _ _ _ Hex). simpl. split.
    + now exists 0.
    + discriminate.
Qed.

Lemma questions_recorded_in_configuration_order_witness :
  let r := test_notebook Examples.world_ok Examples.nb_path Examples.config_no_expected in
  (exists n, map fst (questions r)
             = firstn n (map fst (questions_of Examples.config_no_expected)))
  /\ (forall nb qid qr,
        execute_notebook Examples.world_ok Examples.nb_path 600 = Ok nb ->
        In (qid, qr) (questions r) ->
        exists qc, dict_get (questions_of Examples.config_no_expected) qid = Some qc
                   /\ grade_question nb qc = Ok qr).
Proof.
  apply (questions_recorded_in_configuration_order
           Examples.world_ok Examples.nb_path Examples.config_no_expected).
  unfold dict_wf. simpl.
  repeat (constructor; [simpl; intuition discriminate|]). constructor.
Defined.

(** * Further properties of the commit analyzer *)

Section CommitFacts.

Lemma lower_length s : length s <= length (lower s).
Proof. apply lower_length_le. Qed.

Lemma split_char_not_nil sep s : split_char sep s <> [].
Proof.
  destruct s as [|c t]; simpl; [discriminate|].
  destruct (N.eqb c sep); [discriminate|].
  destruct (split_char sep t); discriminate.
Qed.

(** Joining the lines again gives the text back. *)
Lemma join_nl_split_char s : join_nl (split_char NEWLINE s) = s.
Proof.
  induction s as [|c t IH]; [reflexivity|].
  simpl. destruct (N.eqb_spec c NEWLINE) as [->|Hc].
  - pose proof (split_char_not_nil NEWLINE t) as Hne.
    destruct (split_char NEWLINE t) as [|l ls]; [contradiction|].
    simpl in *. now rewrite IH.
  - pose proof (split_char_not_nil NEWLINE t) as Hne.
    destruct (split_char NEWLINE t) as [|l ls]; [contradiction|].
    destruct ls; simpl in *; now rewrite <- IH.
Qed.

Lemma split_char_no_sep sep s :
  Forall (fun line => ~ In sep line) (split_char sep s).
Proof.
  induction s as [|c t IH]; simpl; [now repeat constructor|].
  destruct (N.eqb_spec c sep) as [->|Hc].
  - constructor; [easy | exact IH].
  - destruct (split_char sep t) as [|l ls]; [now repeat constructor; intros [|[]]|].
    inversion IH as [|? ? Hl Hls]; subst.
    constructor; [|exact Hls]. intros [H|H]; [congruence | contradiction].
Qed.

Lemma filter_length_le {A : Type} (f : A -> bool) (l : list A) :
  length (filter f l) <= length l.
Proof.
  induction l as [|x l IH]; simpl; [lia|].
  destruct (f x); simpl; lia.
Qed.

End CommitFacts.

(** X11. The test for generic words never decides: every generic word is
    shorter than 10 characters, so a commit message is descriptive exactly
    when its trimmed length is at least 10. *)
Theorem descriptive_is_length_only (msg : str) :
  is_descriptive msg = (10 <=? length (strip msg))%nat.
Proof.
  unfold is_descriptive.
  destruct (10 <=? length (strip msg))%nat eqn:Elen; [|reflexivity].
  destruct (str_in_list (strip (lower msg)) generic_words) eqn:E; [|reflexivity].
  exfalso. apply Nat.leb_le in Elen.
  unfold str_in_list in E. apply existsb_exists in E as [x [Hin Hx]].
  apply str_eqb_eq in Hx. rewrite strip_lower in Hx.
  assert (Hl : length (strip msg) <= length x)
    by (rewrite <- Hx; apply lower_length).
  simpl in Hin.
  repeat (destruct Hin as [<-|Hin]; [simpl in Hl; lia|]).
  contradiction.
Qed.

(** X12. [analyze_commits] never raises [CalledProcessError].  When it
    raises, either a query raised that exception, of another class, or the
    count printed by the first query is not an integer. *)
Theorem analyze_commits_raises_only_other_errors w repo_path min_commits e :
  analyze_commits w repo_path min_commits = Raise e ->
  (forall msg, e <> CalledProcessError msg)
  /\ (subprocess_run w GIT_REV_LIST repo_path = Raise e
      \/ exists out,
           subprocess_run w GIT_REV_LIST repo_path = Ok out
           /\ (int_of_str (strip out) = None
               \/ subprocess_run w GIT_LOG repo_path = Raise e)).
Proof.
  unfold analyze_commits, analyze_commits_body.
  destruct (subprocess_run w GIT_REV_LIST repo_path) as [out|e1] eqn:E1.
  - simpl bind. destruct (int_of_str (strip out)) as [n|] eqn:Eint.
    + simpl bind.
      destruct (subprocess_run w GIT_LOG repo_path) as [out2|e2] eqn:E2.
      * discriminate.
      * simpl bind. destruct e2; try discriminate; intros [= <-];
          (split; [discriminate | right; exists out; auto]).
    + simpl bind. intros [= <-]. split; [discriminate|].
      right. exists out. auto.
  - simpl bind. destruct e1; try discriminate; intros [= <-];
      (split; [discriminate | now left]).
Qed.

Lemma analyze_commits_raises_only_other_errors_witness :
  (forall msg, OSError (lit "No such file or directory") <> CalledProcessError msg)
  /\ (subprocess_run Samples.world_no_directory GIT_REV_LIST Examples.repo_path
      = Raise (OSError (lit "No such file or directory"))
      \/ exists out,
           subprocess_run Samples.world_no_directory GIT_REV_LIST Examples.repo_path
           = Ok out
           /\ (int_of_str (strip out) = None
               \/ subprocess_run Samples.world_no_directory GIT_LOG Examples.repo_path
                  = Raise (OSError (lit "No such file or directory")))).
Proof.
  apply (analyze_commits_raises_only_other_errors
           Samples.world_no_directory Examples.repo_path 3).
  reflexivity.
Defined.

(** X13. When both queries succeed, the messages are the lines of the
    trimmed log: there is at least one, none contains a newline, and joined
    by newlines they give the trimmed log back.  The descriptive count lies
    between 0 and the number of messages, an empty log gives the single
    empty message and a count of 0, and a commit count that is not positive
    gives the ratio 0. *)
Theorem analyze_commits_messages w repo_path min_commits count_out log_out n :
  subprocess_run w GIT_REV_LIST repo_path = Ok count_out ->
  int_of_str (strip count_out) = Some n ->
  subprocess_run w GIT_LOG repo_path = Ok log_out ->
  exists r,
    analyze_commits w repo_path min_commits = Ok r
    /\ messages r <> []
    /\ Forall (fun m => ~ In NEWLINE m) (messages r)
    /\ join_nl (messages r) = strip log_out
    /\ (0 <= descriptive_count r <= Z.of_nat (length (messages r)))%Z
    /\ (strip log_out = [] -> messages r = [[]] /\ descriptive_count r = 0%Z)
    /\ ((n <= 0)%Z -> descriptive_ratio r = 0%Q).
Proof.
  intros Hcount Hint Hlog.
  eexists. split.
  { unfold analyze_commits, analyze_commits_body.
    rewrite Hcount. simpl bind. rewrite Hint. simpl bind. rewrite Hlog.
    simpl bind. reflexivity. }
  cbn [messages descriptive_count descriptive_ratio].
  rewrite count_descriptive_filter, Z.add_0_l.
  split; [apply split_char_not_nil|].
  split; [apply split_char_no_sep|].
  split; [apply join_nl_split_char|].
  split; [|split].
  - pose proof (filter_length_le is_descriptive_spec
                  (split_char NEWLINE (strip log_out))). lia.
  - intros ->. split; reflexivity.
  - intros Hn. destruct (Z.ltb_spec 0 n); [lia | reflexivity].
Qed.

Lemma analyze_commits_messages_witness :
  exists r,
    analyze_commits Examples.world_ok Examples.repo_path 3 = Ok r
    /\ messages r <> []
    /\ Forall (fun m => ~ In NEWLINE m) (messages r)
    /\ join_nl (messages r) = strip Examples.five_subjects
    /\ (0 <= descriptive_count r <= Z.of_nat (length (messages r)))%Z
    /\ (strip Examples.five_subjects = [] ->
        messages r = [[]] /\ descriptive_count r = 0%Z)
    /\ ((5 <= 0)%Z -> descriptive_ratio r = 0%Q).
Proof.
  apply (analyze_commits_messages Examples.world_ok Examples.repo_path 3
           (lit "5" ++ [NEWLINE]) Examples.five_subjects 5); reflexivity.
Defined.

(** * The style lint *)

Section LintFacts.

Lemma lint_line_skipped i line : skipped_line line = true -> Lint.lint_line i line = [].
Proof.
  unfold skipped_line, Lint.lint_line.
  destruct (strip line) as [|c t]; [reflexivity|]. now intros ->.
Qed.

Lemma lint_lines_skipped i lines :
  forallb skipped_line lines = true -> Lint.lint_lines i lines = [].
Proof.
  revert i. induction lines as [|line rest IH]; intros i; simpl; [reflexivity|].
  intros H. apply andb_true_iff in H as [Hl Hr].
  now rewrite lint_line_skipped, IH.
Qed.

Lemma startswith_app p s : startswith (p ++ s) p = true.
Proof. apply startswith_iff. now exists s. Qed.

Lemma lint_line_prefix i line :
  Forall (fun s => startswith s (lit "Line ") = true) (Lint.lint_line i line).
Proof.
  unfold Lint.lint_line.
  destruct (strip line) as [|c t]; [constructor|].
  destruct (N.eqb c 35); [constructor|].
  repeat (apply Forall_app; split);
    match goal with
    | |- context [if ?b then _ else _] => destruct b
    end;
    try apply Forall_nil;
    (apply Forall_cons; [apply startswith_app | apply Forall_nil]).
Qed.

Lemma lint_lines_prefix i lines :
  Forall (fun s => startswith s (lit "Line ") = true) (Lint.lint_lines i lines).
Proof.
  revert i. induction lines as [|line rest IH]; intros i; simpl; [constructor|].
  apply Forall_app. split; [apply lint_line_prefix | apply IH].
Qed.

End LintFacts.

(** X14. The lint gives at most three suggestions, each one beginning with
    the line it is about, and none at all for a source whose lines are all
    blank or comments. *)
Theorem linting_is_bounded (source : str) :
  length (run_basic_linting source) <= 3
  /\ Forall (fun s => startswith s (lit "Line ") = true) (run_basic_linting source)
  /\ (forallb skipped_line (split_char NEWLINE source) = true ->
      run_basic_linting source = []).
Proof.
  unfold run_basic_linting. split; [|split].
  - rewrite length_firstn. lia.
  - apply Forall_forall. intros s Hs.
    pose proof (lint_lines_prefix 1 (split_char NEWLINE source)) as H.
    rewrite Forall_forall in H. apply H.
    rewrite <- (firstn_skipn 3). apply in_or_app. now left.
  - intros H. now rewrite lint_lines_skipped.
Qed.

Lemma linting_is_bounded_witness :
  run_basic_linting (lit "# setup" ++ NEWLINE :: lit "   " ++ NEWLINE :: lit "  # done")
  = [].
Proof.
  apply (linting_is_bounded
           (lit "# setup" ++ NEWLINE :: lit "   " ++ NEWLINE :: lit "  # done")).
  reflexivity.
Defined.

(** * The essay check and the placeholder in any letter case *)

Section EssayFacts.

Lemma placeholder_variant_no_sigma variant :
  lower variant = PLACEHOLDER -> ~ In SIGMA variant.
Proof.
  intros H Hin. unfold lower in H.
  destruct (sigma_shows false variant Hin) as [H1|H1];
    rewrite H in H1; vm_compute in H1; intuition discriminate.
Qed.

End EssayFacts.

(** X15. A markdown cell whose trimmed source contains the placeholder
    phrase in any mix of upper and lower case is reported as not answered,
    whatever its length and the minimum length asked for, and the text
    returned is the trimmed source. *)
Theorem placeholder_in_any_case_not_answered nb cell_index min_length cell variant :
  getitem (cells nb) cell_index = Ok cell ->
  cell_type cell = markdown ->
  lower variant = PLACEHOLDER ->
  occurs_in variant (strip (source cell)) ->
  check_essay_answered nb cell_index min_length = Ok (false, strip (source cell)).
Proof.
  intros Hget Hty Hvar Hocc. unfold check_essay_answered.
  pose proof (getitem_ok_lt _ _ _ Hget) as Hlt.
  destruct (Z.leb_spec (Z.of_nat (length (cells nb))) cell_index); [lia|].
  rewrite Hget. simpl. rewrite Hty. simpl.
  apply occurs_in_lower in Hocc; [|now apply placeholder_variant_no_sigma].
  rewrite Hvar in Hocc.
  apply str_in_iff in Hocc. now rewrite Hocc.
Qed.

Lemma placeholder_in_any_case_not_answered_witness :
  check_essay_answered Samples.shouting_nb 0 20
  = Ok (false, lit "< YOUR Answer > and some more words to be long enough").
Proof.
  apply (placeholder_in_any_case_not_answered Samples.shouting_nb 0 20
           Samples.shouting_cell (lit "< YOUR Answer >")); try reflexivity.
  exists [], (lit " and some more words to be long enough"). reflexivity.
Defined.

(** * The configuration table *)

(** X16. When the notebook paths of the table are distinct, the notebooks
    listed for grading are exactly the paths whose configuration, as looked
    up by [get_notebook_config], has a question; a path that is not in the
    table gets a configuration without questions. *)
Theorem configured_notebooks_have_questions m notebook_path :
  dict_wf (TEST_CONFIGS m) ->
  (In notebook_path (get_all_configured_notebooks m)
   <-> has_questions (get_notebook_config m notebook_path) = true)
  /\ (dict_get (TEST_CONFIGS m) notebook_path = None ->
      questions_of (get_notebook_config m notebook_path) = []).
Proof.
  intros Hwf. unfold get_all_configured_notebooks, get_notebook_config. split.
  - rewrite in_map_iff. split.
    + intros [[k c] [Hk Hin]]. simpl in Hk. subst k.
      apply filter_In in Hin as [Hin Hq]. simpl in Hq.
      now rewrite (dict_get_in _ _ _ Hwf Hin).
    + destruct (dict_get (TEST_CONFIGS m) notebook_path) as [c|] eqn:E;
        [|discriminate].
      intros Hq. exists (notebook_path, c). split; [reflexivity|].
      apply filter_In. split; [now apply dict_get_some | exact Hq].
  - now intros ->.
Qed.

Lemma configured_notebooks_have_questions_witness :
  (In (lit "01_elements/01_excercises_print.ipynb")
      (get_all_configured_notebooks Week1.assignment_config)
   <-> has_questions
         (get_notebook_config Week1.assignment_config
            (lit "01_elements/01_excercises_print.ipynb")) = true)
  /\ (dict_get (TEST_CONFIGS Week1.assignment_config)
        (lit "01_elements/01_excercises_print.ipynb") = None ->
      questions_of
        (get_notebook_config Week1.assignment_config
           (lit "01_elements/01_excercises_print.ipynb")) = []).
Proof.
  apply (configured_notebooks_have_questions Week1.assignment_config
           (lit "01_elements/01_excercises_print.ipynb")).
  unfold dict_wf. simpl.
  repeat (constructor; [simpl; intuition discriminate|]). constructor.
Defined.

(** * The report *)

Section ReportFacts.

Variable ff : FloatFormat.

Lemma format_not_executed results :
  executed results = false ->
  exists text, format_results_for_display ff results = Value text.
Proof.
  intros H. unfold format_results_for_display. rewrite H. simpl. now eexists.
Qed.

Lemma format_raises_iff results :
  format_results_for_display ff results = ZeroDivisionError
  <-> executed results = true /\ max_score results = 0%Z.
Proof.
  unfold format_results_for_display.
  destruct (executed results); simpl.
  - destruct (Z.eqb_spec (max_score results) 0) as [E|E].
    + split; [intros _; now split | reflexivity].
    + split; [discriminate | intros [_ ?]; contradiction].
  - split; [discriminate | intros [? _]; discriminate].
Qed.

Lemma reached_points_zero_iff nb qs :
  points_positive qs -> (reached_points nb qs = 0%Z <-> qs = []).
Proof.
  intros Hpos. destruct qs as [|[k qc] rest]; [easy|].
  split; [|discriminate]. simpl.
  inversion Hpos as [|? ? Hp Hrest]; subst. simpl in Hp.
  pose proof (graded_bounded nb rest Hrest) as [_ Hnn].
  destruct (grade_question nb qc); lia.
Qed.

End ReportFacts.

(** X17. Over questions with distinct ids and positive points, the report
    of a grading run raises [ZeroDivisionError] exactly when the notebook
    executed and no question is configured; the report of a notebook that
    did not execute never raises. *)
Theorem report_raises_only_without_questions ff w notebook_path test_config :
  dict_wf (questions_of test_config) ->
  points_positive (questions_of test_config) ->
  format_results_for_display ff (test_notebook w notebook_path test_config)
  = ZeroDivisionError
  <-> (exists nb, execute_notebook w notebook_path 600 = Ok nb)
      /\ questions_of test_config = [].
Proof.
  intros Hwf Hpos. rewrite format_raises_iff.
  destruct (execute_notebook w notebook_path 600) as [nb|e] eqn:Hex.
  - rewrite (test_notebook_executed _ _ _ _ Hwf Hex). simpl.
    rewrite (reached_points_zero_iff nb _ Hpos). split.
    + intros [_ H]. split; [now exists nb | exact H].
    + now intros [_ H].
  - rewrite (test_notebook_failed _ _ _ _ Hex). simpl. split.
    + now intros [? _].
    + now intros [[nb ?] _].
Qed.

Lemma report_raises_only_without_questions_witness :
  format_results_for_display Samples.floor_percent
    (test_notebook Examples.world_ok Examples.nb_path {| cfg_questions := None |})
  = ZeroDivisionError.
Proof.
  apply (report_raises_only_without_questions Samples.floor_percent
           Examples.world_ok Examples.nb_path {| cfg_questions := None |}).
  - constructor.
  - constructor.
  - split; [now exists Examples.nb | reflexivity].
Defined.

(** * The runner *)

Section RunnerFacts.

Variables (ff : FloatFormat) (sh : Shell) (w : World) (m : ConfigModule).

Lemma sum_max_scores_snoc l r :
  sum_max_scores (l ++ [r]) = (sum_max_scores l + max_score r)%Z.
Proof.
  unfold sum_max_scores. induction l as [|x l IH]; simpl; [lia|].
  rewrite IH. lia.
Qed.

Lemma grade_notebooks_consistent paths st :
  totals_consistent ff st ->
  totals_consistent ff (fst (grade_notebooks ff sh w m paths st)).
Proof.
  revert st. induction paths as [|path rest IH]; intros st Hst; simpl; [exact Hst|].
  destruct (path_exists sh (cwd_join sh path)); simpl negb; cbv iota.
  - destruct (format_results_for_display ff _) as [text|] eqn:E; simpl.
    + apply IH. destruct Hst as [Hall Hsum]. split; simpl.
      * apply Forall_app. split; [exact Hall|].
        constructor; [now exists text | constructor].
      * rewrite sum_max_scores_snoc. lia.
    + exact Hst.
  - apply IH. exact Hst.
Qed.

Lemma write_results_displayable l :
  Forall (displayable ff) l -> snd (write_results ff l) = false.
Proof.
  induction 1 as [|r l [text Hr] _ IH]; simpl; [reflexivity|].
  rewrite Hr. destruct (write_results ff l). exact IH.
Qed.

(** Notebooks that are absent or fail to execute leave the totals alone. *)
Lemma grade_notebooks_nothing_executes paths st :
  (forall path,
     In path paths ->
     path_exists sh (cwd_join sh path) = false
     \/ exists e, execute_notebook w (cwd_join sh path) 600 = Raise e) ->
  snd (grade_notebooks ff sh w m paths st) = false
  /\ max_total_score (fst (grade_notebooks ff sh w m paths st))
     = max_total_score st.
Proof.
  revert st. induction paths as [|path rest IH]; intros st H; simpl; [easy|].
  assert (Hrest : forall p, In p rest ->
                    path_exists sh (cwd_join sh p) = false
                    \/ exists e, execute_notebook w (cwd_join sh p) 600 = Raise e)
    by (intros p Hp; apply H; now right).
  destruct (path_exists sh (cwd_join sh path)) eqn:Ex; simpl negb; cbv iota.
  - destruct (H path (or_introl eq_refl)) as [Hf|[e He]]; [congruence|].
    rewrite (test_notebook_failed _ _ _ _ He).
    unfold format_results_for_display at 1. simpl.
    match goal with
    | |- context [grade_notebooks ff sh w m rest ?st1] =>
        destruct (IH st1 Hrest) as [-> ->]
    end.
    simpl. split; [reflexivity | lia].
  - match goal with
    | |- context [grade_notebooks ff sh w m rest ?st1] =>
        destruct (IH st1 Hrest) as [-> ->]
    end.
    simpl. now split.
Qed.

Lemma grade_notebooks_all_absent paths st :
  (forall path, In path paths -> path_exists sh (cwd_join sh path) = false) ->
  grade_notebooks ff sh w m paths st
  = ({| printed :=
          printed st
          ++ map (fun path => WARNING_SIGN ++ lit "  Warning: " ++ path
                              ++ lit " not found, skipping...") paths;
        all_results := all_results st;
        total_score := total_score st;
        max_total_score := max_total_score st |},
     false).
Proof.
  revert st. induction paths as [|path rest IH]; intros st H; simpl.
  - rewrite app_nil_r. now destruct st.
  - rewrite (H path (or_introl eq_refl)). simpl.
    rewrite IH by (intros p Hp; apply H; now right).
    simpl. now rewrite <- app_assoc.
Qed.

End RunnerFacts.

(** X18. The runner never returns the failure status 1.  A run either
    returns 0 after writing the results file, or raises [ZeroDivisionError]
    before the results file is opened. *)
Theorem run_autograder_returns_zero_or_raises ff sh w m :
  let out := run_autograder ff sh w m in
  (status out = Value 0%Z /\ results_file out <> None)
  \/ (status out = ZeroDivisionError /\ results_file out = None).
Proof.
  unfold run_autograder.
  match goal with
  | |- context [grade_notebooks ff sh w m ?paths ?st0] =>
      pose proof (grade_notebooks_consistent ff sh w m paths st0) as Hinv;
      destruct (grade_notebooks ff sh w m paths st0) as [st raised]
  end.
  destruct raised; simpl; [now right|].
  destruct (Z.eqb_spec (max_total_score st) 0) as [Hz|Hnz]; [now right|].
  destruct Hinv as [Hall Hsum]; [split; [constructor | reflexivity]|].
  simpl in Hall, Hsum.
  pose proof (write_results_displayable ff _ Hall) as Hw.
  simpl all_results.
  destruct (write_results ff (all_results st)) as [chunks raised].
  simpl in Hw. subst raised. left. simpl.
  destruct (all_results st); [simpl in Hsum; contradiction|].
  split; [reflexivity | discriminate].
Qed.

(** X19. When every configured notebook is absent or fails to execute, the
    runner raises [ZeroDivisionError] and writes no results file; when all
    are absent it has printed the banner, one warning per configured
    notebook and the heading of the summary. *)
Theorem run_autograder_raises_when_nothing_executes ff sh w m :
  ((forall path,
      In path (get_all_configured_notebooks m) ->
      path_exists sh (cwd_join sh path) = false
      \/ exists e, execute_notebook w (cwd_join sh path) 600 = Raise e) ->
   status (run_autograder ff sh w m) = ZeroDivisionError
   /\ results_file (run_autograder ff sh w m) = None)
  /\ ((forall path,
         In path (get_all_configured_notebooks m) ->
         path_exists sh (cwd_join sh path) = false) ->
      stdout (run_autograder ff sh w m)
      = [NEWLINE :: rule 70;
         lit "Running Autograder: " ++ ASSIGNMENT_NAME m;
         rule 70 ++ [NEWLINE]]
        ++ map (fun path => WARNING_SIGN ++ lit "  Warning: " ++ path
                            ++ lit " not found, skipping...")
             (get_all_configured_notebooks m)
        ++ [NEWLINE :: rule 70; lit "AUTOGRADER SUMMARY"; rule 70]).
Proof.
  split; intros H; unfold run_autograder.
  - match goal with
    | |- context [grade_notebooks ff sh w m ?paths ?st0] =>
        pose proof (grade_notebooks_nothing_executes ff sh w m paths st0 H)
          as [Hr Hm];
        destruct (grade_notebooks ff sh w m paths st0) as [st raised]
    end.
    simpl in Hr, Hm. subst raised. simpl. rewrite Hm. simpl. now split.
  - rewrite (grade_notebooks_all_absent ff sh w m _ _ H). simpl.
    now rewrite <- !app_assoc.
Qed.

Lemma run_autograder_raises_when_nothing_executes_witness :
  status (run_autograder Samples.floor_percent Samples.shell_nothing_present
            Examples.world_ok Week1.assignment_config) = ZeroDivisionError
  /\ results_file (run_autograder Samples.floor_percent Samples.shell_nothing_present
                     Examples.world_ok Week1.assignment_config) = None.
Proof.
  apply (run_autograder_raises_when_nothing_executes
           Samples.floor_percent Samples.shell_nothing_present
           Examples.world_ok Week1.assignment_config).
  intros path _. left. reflexivity.
Defined.
